(** * Invoice verification: response classification, request composition,
      signatory registry and verification session

    A shallow embedding of [claude_api.py] and [main.py].  Python [str] is
    modelled as [string] (the UTF-8 bytes of the text; substring tests on
    valid UTF-8 agree with substring tests on code points), Python [dict]
    as an insertion-ordered association list, Python [int] as [Z].  The
    file system, the clock, the image codec and the remote service are
    the environment: their answers are arguments of the functions that
    consult them, and files are part of an explicit [filesystem] state. *)

From Stdlib Require Import String Ascii List ZArith Bool Lia Permutation Sorted.
From Stdlib Require Import DecimalString.
From Stdlib Require OrderedTypeEx.
Import ListNotations.
Local Open Scope string_scope.
Local Open Scope list_scope.

Set Implicit Arguments.

(** ** Python strings *)

Module PyStr.

(** [needle in hay] for [str]: true iff [needle] occurs as a contiguous
    run of [hay] (the empty string occurs everywhere). *)
Fixpoint contains (needle hay : string) : bool :=
  if String.prefix needle hay then true
  else match hay with
       | EmptyString => false
       | String _ rest => contains needle rest
       end.

(** [s.replace(old, new)] for one-character [old] and [new]. *)
Fixpoint replace_char (old new : ascii) (s : string) : string :=
  match s with
  | EmptyString => EmptyString
  | String c rest =>
      String (if Ascii.eqb c old then new else c) (replace_char old new rest)
  end.

(** [s.startswith(p)] *)
Definition startswith (p s : string) : bool := String.prefix p s.

(** truthiness of a [str]: non-empty *)
Definition truthy (s : string) : bool :=
  match s with EmptyString => false | _ => true end.

(** [str(n)] for an [int] *)
Definition of_int (n : Z) : string := NilZero.string_of_int (Z.to_int n).

End PyStr.

(** ** Python dictionaries: insertion-ordered, one binding per key *)

Module PyDict.
Section Dict.
Variable V : Type.

Definition t := list (string * V).

Fixpoint get (k : string) (d : t) : option V :=
  match d with
  | [] => None
  | (k', v) :: rest => if String.eqb k k' then Some v else get k rest
  end.

Definition mem (k : string) (d : t) : bool :=
  match get k d with Some _ => true | None => false end.

(** [d[k] = v]: overwrite in place when [k] is bound, append otherwise. *)
Fixpoint set (k : string) (v : V) (d : t) : t :=
  match d with
  | [] => [(k, v)]
  | (k', v') :: rest =>
      if String.eqb k k' then (k', v) :: rest
      else (k', v') :: set k v rest
  end.

(** [del d[k]] *)
Fixpoint del (k : string) (d : t) : t :=
  match d with
  | [] => []
  | (k', v') :: rest =>
      if String.eqb k k' then rest else (k', v') :: del k rest
  end.

Definition keys (d : t) : list string := map fst d.
End Dict.
End PyDict.

(** ** The response classifier of [call_claude_api] *)

Inductive status_code := valid | invalid | unclear | error.

Definition marker_valid   : string := "STATUS: תקין".
Definition marker_invalid : string := "STATUS: לא תקין".
Definition marker_unclear : string := "STATUS: לא ברור".

(** lines 173-179 of claude_api.py, with the default of line 164 *)
Definition parse_status (result_text : string) : status_code :=
  if PyStr.contains marker_valid result_text then valid
  else if PyStr.contains marker_invalid result_text then invalid
  else if PyStr.contains marker_unclear result_text then unclear
  else unclear.

(** ** Images (PIL): only what the program inspects *)

Record image := {
  img_format : string;   (* [image.format], e.g. "PNG", "JPEG", "HEIC" *)
  img_mode   : string;   (* [image.mode],   e.g. "RGB", "RGBA", "P" *)
  img_pixels : nat       (* the raster, kept abstract *)
}.

(** [image.convert('RGB')] *)
Definition convert_rgb (im : image) : image :=
  {| img_format := ""; img_mode := "RGB"; img_pixels := img_pixels im |}.

Definition nl : string := String "010"%char EmptyString.

(** ** claude_api.py *)

Inductive content_item :=
| TextPart (text : string)
| ImagePart (media_type : string) (data : string).

Definition is_image_part (c : content_item) : bool :=
  match c with ImagePart _ _ => true | TextPart _ => false end.

(** an item of the "content" list of a reply.  Only well-formed items are
    modelled: every item carries its "type", and a text item its "text";
    on any other item lines 169-171 raise [KeyError], which leaves
    [call_claude_api] *)
Inductive resp_item :=
| TextItem (text : string)            (* {"type": "text", "text": ...} *)
| OtherItem (type : string).          (* any other "type" *)

(** what [requests.post(...)], [raise_for_status()] and [json()] give.
    [RequestException] stands for every exception of the class
    [requests.exceptions.RequestException], caught at line 186: a
    transport failure, an HTTP error status, and also a body that is not
    JSON when [json()] raises the library's own [JSONDecodeError], which
    is of that class.  [JSONDecodeError] stands for a
    [json.JSONDecodeError] that is not of that class, caught at line 192.
    The text of the exception, which ends both error messages, is left
    out. *)
Inductive http_outcome :=
| RequestException (msg : string)
| JSONDecodeError
| Body (content : option (list resp_item)).   (* [None]: no "content" key *)

(** the dictionary [call_claude_api] returns *)
Inductive api_response :=
| ErrorResponse (error_text : string) (code : option status_code)
| DataResponse (content : option (list resp_item)) (code : status_code).

Section ClaudeApi.

(** [image.save(buffered, format="JPEG")] followed by base64: [None]
    when the codec raises (PIL refuses some modes as JPEG). *)
Variable jpeg_base64 : image -> option string.

(** lines 57-69 *)
Definition encode_image (im : image) : option string :=
  jpeg_base64 (if String.eqb (img_mode im) "RGBA" then convert_rgb im else im).

(** line 87 *)
Definition info_header : string := ("רשימת מורשי החתימה:" ++ nl)%string.

(** line 89 *)
Definition info_line (item : string * Z) : string :=
  ("- " ++ fst item ++ ": עד " ++ PyStr.of_int (snd item) ++ " ש״ח" ++ nl)%string.

(** lines 87-89 *)
Definition signatories_info (signatories : PyDict.t Z) : string :=
  fold_left (fun acc item => (acc ++ info_line item)%string) signatories info_header.

Definition prompt_preamble : string :=
  ("אנא בדוק את החשבונית הזו. האם היא עומדת בכל הדרישות?" ++ nl ++ nl
   ++ "חשוב מאוד: סכם את הבדיקה עם שורה אחת בלבד בפורמט הבא: STATUS: [תקין/לא תקין/לא ברור]"
   ++ nl ++ nl)%string.

(** lines 92-98 *)
Definition instruction (signatories : PyDict.t Z) : content_item :=
  TextPart (prompt_preamble ++ signatories_info signatories)%string.

Definition label (name : string) : content_item :=
  TextPart ("דוגמת חתימה של " ++ name ++ ":")%string.

Definition jpeg_part (data : string) : content_item :=
  ImagePart "image/jpeg" data.

(** line 133 (the text of the exception is left out) *)
Definition encode_warning (name : string) : string :=
  ("Warning: Failed to encode signature for " ++ name)%string.

(** one turn of the loop of lines 115-133: the pair is
    (content_items, printed warnings) *)
Definition add_signature (acc : list content_item * list string)
           (entry : string * option image) : list content_item * list string :=
  let '(items, printed) := acc in
  let '(name, sig_image) := entry in
  match sig_image with
  | None => (items, printed)
  | Some im =>
      let items1 := items ++ [label name] in
      match encode_image im with
      | Some b64 => (items1 ++ [jpeg_part b64], printed)
      | None =>
          (items1, printed ++ [encode_warning name])
      end
  end.

(** lines 87-133: [inl] is the early [return {"error": ...}] (the text
    of the exception, which the message ends with, is left out) *)
Definition content_items (invoice_image : image) (signatories : PyDict.t Z)
           (signature_images : PyDict.t (option image))
  : string + (list content_item * list string) :=
  match encode_image invoice_image with
  | None => inl "שגיאה בקידוד תמונת החשבונית"
  | Some invoice_base64 =>
      inr (fold_left add_signature signature_images
                     ([instruction signatories; jpeg_part invoice_base64], []))
  end.

(** *** The request as the specification words it *)

(** a usable reference image: on file and accepted by the codec *)
Definition usable (sig_image : option image) : option string :=
  match sig_image with
  | Some im => encode_image im
  | None => None
  end.

(** a label part followed by the image part, for a usable image *)
Definition reference_parts (entry : string * option image) : list content_item :=
  match usable (snd entry) with
  | Some b64 => [label (fst entry); jpeg_part b64]
  | None => []
  end.

(** the image part alone *)
Definition reference_image (entry : string * option image) : list content_item :=
  match usable (snd entry) with
  | Some b64 => [jpeg_part b64]
  | None => []
  end.

(** what one turn of the loop of lines 115-133 appends *)
Definition appended_parts (entry : string * option image) : list content_item :=
  match snd entry with
  | Some im =>
      label (fst entry) ::
      match encode_image im with
      | Some b64 => [jpeg_part b64]
      | None => []
      end
  | None => []
  end.

(** what an entry of [signature_images] may contribute to the request:
    nothing when it has no image; the label part followed by the image
    part when its image encodes; no image part when it does not *)
Definition reference_block (entry : string * option image)
           (block : list content_item) : Prop :=
  match snd entry with
  | None => block = []
  | Some im =>
      match encode_image im with
      | Some b64 => block = [label (fst entry); jpeg_part b64]
      | None => filter is_image_part block = []
      end
  end.

(** the entry has no image, or one that the codec accepts *)
Definition encodable (entry : string * option image) : bool :=
  match snd entry with
  | Some im => match encode_image im with Some _ => true | None => false end
  | None => true
  end.

Definition encode_failure (entry : string * option image) : list string :=
  match snd entry with
  | Some im => match encode_image im with
               | Some _ => []
               | None => [encode_warning (fst entry)]
               end
  | None => []
  end.

(** the instruction, the invoice, then label and image of every
    signatory with a usable image, the signatories taken in the order of
    the roster *)
Definition request_as_specified (invoice_base64 : string)
           (signatories : PyDict.t Z) (signature_images : PyDict.t (option image))
  : list content_item :=
  instruction signatories :: jpeg_part invoice_base64 ::
  flat_map (fun name =>
              match PyDict.get name signature_images with
              | Some sig_image => reference_parts (name, sig_image)
              | None => []
              end) (PyDict.keys signatories).

Definition request_of (r : string + (list content_item * list string))
  : option (list content_item) :=
  match r with
  | inl _ => None
  | inr (items, _) => Some items
  end.

(** lines 163, 169-171 *)
Definition result_text_of (content : list resp_item) : string :=
  fold_left (fun acc item =>
               match item with
               | TextItem t => (acc ++ t)%string
               | OtherItem _ => acc
               end) content "".

(** lines 157-197; [http] stands for the remote service, which sees the
    composed request *)
Definition call_claude_api (http : list content_item -> http_outcome)
           (invoice_image : image) (signatories : PyDict.t Z)
           (signature_images : PyDict.t (option image)) : api_response :=
  match content_items invoice_image signatories signature_images with
  | inl msg => ErrorResponse msg None
  | inr (items, _) =>
      match http items with
      | RequestException _ =>
          ErrorResponse "שגיאה בשליחת הבקשה לAPI" (Some error)
      | JSONDecodeError =>
          ErrorResponse "שגיאה בקריאת תשובת API" (Some error)
      | Body None => DataResponse None unclear
      | Body (Some content) =>
          DataResponse (Some content) (parse_status (result_text_of content))
      end
  end.

End ClaudeApi.

(** ** main.py: files, the registry and its backups *)

Definition SIGNATORIES_FILE : string := "authorized_signatories.json".
Definition SIGNATURES_DIR : string := "signatures".
Definition BACKUPS_DIR : string := "backups".

(** one value of the registry's JSON object *)
Record entry := {
  max_amount : Z;
  signature_image_path : option string
}.

(** the bytes of [SIGNATORIES_FILE]: a complete [json.dump] of [data], or
    the first [written] characters of one that was cut short (never a
    valid JSON text: the closing brace is missing) *)
Inductive registry_file :=
| Whole (data : PyDict.t entry)
| Torn (data : PyDict.t entry) (written : nat).

Inductive image_file :=
| Decodable (im : image)
| Corrupt.

Record filesystem := {
  signatories_file : option registry_file;   (* [None]: the path does not exist *)
  backups_dir : PyDict.t registry_file;      (* file name in backups/ -> content *)
  other_files : PyDict.t image_file          (* path -> content, e.g. signatures/... *)
}.

(** Streamlit output *)
Inductive ui_msg :=
| st_error (text : string)
| st_warning (text : string)
| st_info (text : string)
| st_success (text : string).

(** what the environment decides during one call of [save_signatories] *)
Inductive write_outcome :=
| WriteOk
| OpenFails                     (* [open(..., 'w')] raises, nothing touched *)
| DumpFails (written : nat).    (* [json.dump] raises after [written] characters *)

Record io := {
  now : string;                              (* [strftime("%Y%m%d_%H%M%S")] *)
  copy_ok : bool;                            (* [shutil.copy2] does not raise *)
  remove_ok : string -> bool;                (* [os.remove] does not raise *)
  image_save_ok : image -> string -> bool;   (* [img.save(filename)] does not raise *)
  reopened : image -> string -> image;       (* the image the codec of that format
                                                gives back for an image it wrote *)
  write : write_outcome
}.

(** [sorted(...)] on strings: ascending in the order of [str], which on
    UTF-8 bytes is [String.leb] *)
Fixpoint insert_sorted (x : string) (l : list string) : list string :=
  match l with
  | [] => [x]
  | y :: rest => if String.leb x y then x :: l else y :: insert_sorted x rest
  end.

Fixpoint py_sorted (l : list string) : list string :=
  match l with
  | [] => []
  | x :: rest => insert_sorted x (py_sorted rest)
  end.

Definition backup_prefix : string := "signatories_backup_".

Definition backup_name (timestamp : string) : string :=
  (backup_prefix ++ timestamp ++ ".json")%string.

(** the backups that [os.listdir(BACKUPS_DIR)] shows and line 67 keeps *)
Definition backup_names (dir : PyDict.t registry_file) : list string :=
  filter (PyStr.startswith backup_prefix) (PyDict.keys dir).

(** line 68, [backups[:-5]] *)
Definition all_but_last_5 (backups : list string) : list string :=
  firstn (length backups - 5) backups.

(** lines 69-72 for one file *)
Definition try_remove (env : io) (dir : PyDict.t registry_file) (old_backup : string)
  : PyDict.t registry_file :=
  if remove_ok env old_backup then PyDict.del old_backup dir else dir.

(** lines 54-72; [None] is the exception of [shutil.copy2] leaving the
    function *)
Definition backup_signatories_file (env : io) (fs : filesystem) : option filesystem :=
  match signatories_file fs with
  | None => Some fs
  | Some content =>
      if copy_ok env then
        let dir1 := PyDict.set (backup_name (now env)) content (backups_dir fs) in
        let backups := py_sorted (backup_names dir1) in
        let dir2 := fold_left (try_remove env) (all_but_last_5 backups) dir1 in
        Some {| signatories_file := signatories_file fs;
                backups_dir := dir2;
                other_files := other_files fs |}
      else None
  end.

(** lines 75-87: [Image.open] on a file's content *)
Definition safe_open_image (f : image_file) : option image * list ui_msg :=
  match f with
  | Decodable im =>
      (Some (if (String.eqb (img_format im) "HEIC" || String.eqb (img_format im) "HEIF")
                && negb (String.eqb (img_mode im) "RGB")
             then convert_rgb im else im), [])
  | Corrupt =>
      (None, [st_error "שגיאה בפתיחת הקובץ";
              st_info "אם הקובץ הוא בפורמט HEIC (תמונה מאייפון), ייתכן שתצטרך להמירו ל-JPEG לפני העלאה."])
  end.

(** the state of the loop of lines 112-124 *)
Record loading := {
  ld_signatories : PyDict.t Z;
  ld_signature_images : PyDict.t (option image);
  ld_missing_images : list string;
  ld_msgs : list ui_msg
}.

Definition load_entry (files : PyDict.t image_file) (acc : loading)
           (item : string * entry) : loading :=
  let '(name, data) := item in
  let signatories := PyDict.set name (max_amount data) (ld_signatories acc) in
  match signature_image_path data with
  | None =>
      {| ld_signatories := signatories;
         ld_signature_images := ld_signature_images acc;
         ld_missing_images := ld_missing_images acc;
         ld_msgs := ld_msgs acc |}
  | Some image_path =>
      match PyDict.get image_path files with
      | Some f =>
          let '(im, msgs) := safe_open_image f in
          {| ld_signatories := signatories;
             ld_signature_images := PyDict.set name im (ld_signature_images acc);
             ld_missing_images := ld_missing_images acc;
             ld_msgs := ld_msgs acc ++ msgs |}
      | None =>
          {| ld_signatories := signatories;
             ld_signature_images := ld_signature_images acc;
             ld_missing_images :=
               ld_missing_images acc
               ++ [(name ++ " (קובץ לא נמצא: " ++ image_path ++ ")")%string];
             ld_msgs := ld_msgs acc |}
      end
  end.

(** lines 101-135 *)
Definition load_signatories (fs : filesystem)
  : PyDict.t Z * PyDict.t (option image) * list ui_msg :=
  match signatories_file fs with
  | None => ([], [], [])
  | Some (Torn _ _) => ([], [], [st_error "שגיאה בטעינת מורשי החתימה"])
  | Some (Whole signatories_data) =>
      let r := fold_left (load_entry (other_files fs)) signatories_data
                 {| ld_signatories := []; ld_signature_images := [];
                    ld_missing_images := []; ld_msgs := [] |} in
      (ld_signatories r, ld_signature_images r,
       ld_msgs r ++
       match ld_missing_images r with
       | [] => []
       | missing =>
           [st_warning ("לא ניתן היה לטעון את תמונות החתימה הבאות:" ++ nl
                        ++ String.concat nl missing)%string]
       end)
  end.

(** the file name built at lines 156, 159 and 171 *)
Definition signature_filename (name ext : string) : string :=
  (SIGNATURES_DIR ++ "/"
   ++ PyStr.replace_char "/" "_" (PyStr.replace_char " " "_" name)
   ++ "_signature." ++ ext)%string.

(** what a later [Image.open] finds in a file that [img.save] wrote in
    the format [fmt]: an image of that format, whose mode and raster are
    those the codec gives back, not necessarily those of [im] (JPEG is
    lossy, and a bilevel image written as JPEG is read back in grey
    levels) *)
Definition stored (env : io) (im : image) (fmt : string) : image_file :=
  Decodable {| img_format := fmt;
               img_mode := img_mode (reopened env im fmt);
               img_pixels := img_pixels (reopened env im fmt) |}.

(** the state of the loop of lines 145-176 *)
Record saving := {
  sv_data : PyDict.t entry;
  sv_files : PyDict.t image_file;
  sv_msgs : list ui_msg
}.

Definition save_entry (env : io) (signature_images : PyDict.t (option image))
           (acc : saving) (item : string * Z) : saving :=
  let '(name, amount) := item in
  let data := PyDict.set name {| max_amount := amount; signature_image_path := None |}
                         (sv_data acc) in
  match PyDict.get name signature_images with
  | Some (Some img) =>
      let is_rgba := String.eqb (img_mode img) "RGBA" in
      let filename := signature_filename name (if is_rgba then "png" else "jpg") in
      if image_save_ok env img filename then
        {| sv_data := PyDict.set name {| max_amount := amount;
                                         signature_image_path := Some filename |} data;
           sv_files := PyDict.set filename (stored env img (if is_rgba then "PNG" else "JPEG"))
                                  (sv_files acc);
           sv_msgs := sv_msgs acc |}
      else
        let alt_filename := signature_filename name "png" in
        let img_rgb := convert_rgb img in
        if image_save_ok env img_rgb alt_filename then
          {| sv_data := PyDict.set name {| max_amount := amount;
                                           signature_image_path := Some alt_filename |} data;
             sv_files := PyDict.set alt_filename (stored env img_rgb "PNG") (sv_files acc);
             sv_msgs := sv_msgs acc |}
        else
          {| sv_data := data;
             sv_files := sv_files acc;
             sv_msgs := sv_msgs acc
                        ++ [st_warning ("לא ניתן לשמור את תמונת החתימה של " ++ name)%string] |}
  | _ => {| sv_data := data; sv_files := sv_files acc; sv_msgs := sv_msgs acc |}
  end.

Definition save_failed : ui_msg := st_error "שגיאה בשמירת מורשי החתימה".

(** lines 138-185: the returned boolean, the file system afterwards and
    the messages shown *)
Definition save_signatories (env : io) (fs : filesystem)
           (signatories : PyDict.t Z) (signature_images : PyDict.t (option image))
  : bool * filesystem * list ui_msg :=
  match backup_signatories_file env fs with
  | None => (false, fs, [save_failed])
  | Some fs1 =>
      let r := fold_left (save_entry env signature_images) signatories
                 {| sv_data := []; sv_files := other_files fs1; sv_msgs := [] |} in
      match write env with
      | WriteOk =>
          (true,
           {| signatories_file := Some (Whole (sv_data r));
              backups_dir := backups_dir fs1;
              other_files := sv_files r |},
           sv_msgs r)
      | OpenFails =>
          (false,
           {| signatories_file := signatories_file fs1;
              backups_dir := backups_dir fs1;
              other_files := sv_files r |},
           sv_msgs r ++ [save_failed])
      | DumpFails written =>
          (false,
           {| signatories_file := Some (Torn (sv_data r) written);
              backups_dir := backups_dir fs1;
              other_files := sv_files r |},
           sv_msgs r ++ [save_failed])
      end
  end.

(** ** main.py: the session and its handlers *)

Record session_state := {
  signatories : PyDict.t Z;
  signature_images : PyDict.t (option image);
  verification_result : option string;
  show_verification_modal : bool;
  verification_in_progress : bool;
  ss_status_code : status_code
}.

(** How a Python call ends. *)
Inductive completion (A : Type) :=
| Returns (a : A)
| Raises (exception : string).
Arguments Returns {A} a.
Arguments Raises {A} exception.

(** lines 355-363 on a fresh session, after lines 248-252 *)
Definition initial_session (fs : filesystem) : session_state :=
  let '(sigs, imgs, _) := load_signatories fs in
  {| signatories := sigs; signature_images := imgs;
     verification_result := None; show_verification_modal := false;
     verification_in_progress := false; ss_status_code := unclear |}.

Definition with_roster (s : session_state) (sigs : PyDict.t Z)
           (imgs : PyDict.t (option image)) : session_state :=
  {| signatories := sigs; signature_images := imgs;
     verification_result := verification_result s;
     show_verification_modal := show_verification_modal s;
     verification_in_progress := verification_in_progress s;
     ss_status_code := ss_status_code s |}.

(** lines 310-313 and 317-320 *)
Definition saved_msg (ok is_new : bool) (new_name : string) : ui_msg :=
  if ok then
    st_success ("מורשה החתימה " ++ new_name ++ " "
                ++ (if is_new then "נוסף" else "עודכן") ++ " בהצלחה!")%string
  else st_error "שגיאה בשמירת הנתונים".

(** lines 297-323, the "add / update" button; [new_signature] is the
    uploaded file, if any *)
Definition upsert_click (env : io) (s : session_state) (fs : filesystem)
           (is_new : bool) (new_name : string) (new_amount : Z)
           (new_signature : option image_file)
  : completion (session_state * filesystem * list ui_msg) :=
  if PyStr.truthy new_name && (new_amount >? 0)%Z then
    let sigs := PyDict.set new_name new_amount (signatories s) in
    match new_signature with
    | Some upload =>
        match safe_open_image upload with
        | (Some signature_image, msgs) =>
            let imgs := PyDict.set new_name (Some signature_image) (signature_images s) in
            let '(ok, fs', m) := save_signatories env fs sigs imgs in
            Returns (with_roster s sigs imgs, fs',
                     msgs ++ m ++ [saved_msg ok is_new new_name])
        | (None, msgs) =>
            Returns (with_roster s sigs (signature_images s), fs, msgs)
        end
    | None =>
        let '(ok, fs', m) := save_signatories env fs sigs (signature_images s) in
        Returns (with_roster s sigs (signature_images s), fs',
                 m ++ [saved_msg ok is_new new_name])
    end
  else Returns (s, fs, []).

(** lines 335-342, the "remove" button of a listed signatory *)
Definition remove_click (env : io) (s : session_state) (fs : filesystem) (name : string)
  : completion (session_state * filesystem * list ui_msg) :=
  if PyDict.mem name (signatories s) then
    let sigs := PyDict.del name (signatories s) in
    let imgs := if PyDict.mem name (signature_images s)
                then PyDict.del name (signature_images s)
                else signature_images s in
    let '(_, fs', m) := save_signatories env fs sigs imgs in
    Returns (with_roster s sigs imgs, fs', m)
  else Raises "KeyError".

(** lines 371-374 *)
Definition start_verification (s : session_state) : completion session_state :=
  Returns {| signatories := signatories s;
             signature_images := signature_images s;
             verification_result := verification_result s;
             show_verification_modal := true;
             verification_in_progress := true;
             ss_status_code := ss_status_code s |}.

(** the user message text of line 464 for a body without "content" is the
    empty string: [response.get("content", [])] *)
Definition response_text (content : option (list resp_item)) : string :=
  match content with
  | Some items => result_text_of items
  | None => ""
  end.

(** lines 436-476: the branch of [show_verification_results] taken while
    [verification_in_progress] holds.  The [except Exception] of lines
    469-472, which stores the status [error] for whatever
    [call_claude_api] raises, has no counterpart here: on the replies
    modelled ([resp_item]) the call raises nothing *)
Definition run_verification (jpeg_base64 : image -> option string)
           (http : list content_item -> http_outcome)
           (invoice_image : image) (s : session_state) : session_state :=
  match call_claude_api jpeg_base64 http invoice_image
                        (signatories s) (signature_images s) with
  | ErrorResponse e _ =>
      {| signatories := signatories s;
         signature_images := signature_images s;
         verification_result :=
           Some ("<span style='color:red'>שגיאה: " ++ e ++ "</span>")%string;
         show_verification_modal := show_verification_modal s;
         verification_in_progress := false;
         ss_status_code := error |}
  | DataResponse content code =>
      {| signatories := signatories s;
         signature_images := signature_images s;
         verification_result := Some (response_text content);
         show_verification_modal := show_verification_modal s;
         verification_in_progress := false;
         ss_status_code := code |}
  end.

(** the three labels of the system prompt (lines 37-39) *)
Definition label_of (c : status_code) : string :=
  match c with
  | valid => "תקין"
  | invalid => "לא תקין"
  | unclear => "לא ברור"
  | error => "error"
  end.

(** lines 485-497: the status the dialog shows *)
Definition display_status (result_text : string) : string :=
  if PyStr.contains "לא תקין" result_text then "לא תקין"
  else if PyStr.contains "לא ברור" result_text then "לא ברור"
  else "תקין".

Definition not_found : string := "לא נמצא".

(** lines 502-505: the first key that occurs in the text *)
Fixpoint first_name_in (names : list string) (result_text : string) : string :=
  match names with
  | [] => not_found
  | name :: rest =>
      if PyStr.contains name result_text then name
      else first_name_in rest result_text
  end.

(** lines 500-505 *)
Definition scan_signatories (sigs : PyDict.t Z) (result_text : string) : string :=
  match sigs with
  | [] => not_found
  | _ => first_name_in (PyDict.keys sigs) result_text
  end.

(** lines 500-508: in [A or B in result_text] the operand [A] is a
    non-empty literal, and [or] yields it without looking at the text *)
Definition signatory_name (sigs : PyDict.t Z) (result_text : string) : string :=
  let found := scan_signatories sigs result_text in
  if PyStr.truthy "לא ניתן לזהות" || PyStr.contains "לא זוהתה חתימה" result_text
  then not_found
  else found.

(** lines 478-524: what the dialog shows once a result is stored; [None]
    when neither branch of the dialog applies *)
Definition show_verification_results (s : session_state) : option (string * string) :=
  if verification_in_progress s then None
  else match verification_result s with
       | Some result_text =>
           if PyStr.truthy result_text
           then Some (display_status result_text,
                      signatory_name (signatories s) result_text)
           else None
       | None => None
       end.

(** ** Notions used to state the properties *)

(** the (name, limit) pairs of a registry file *)
Definition limits (data : PyDict.t entry) : PyDict.t Z :=
  map (fun item => (fst item, max_amount (snd item))) data.

(** a roster as the specification wants it *)
Definition valid_roster (sigs : PyDict.t Z) : Prop :=
  NoDup (PyDict.keys sigs) /\
  Forall (fun item => fst item <> "" /\ (0 <= snd item)%Z) sigs.

Definition loaded_signatories (fs : filesystem) : PyDict.t Z :=
  fst (fst (load_signatories fs)).

Definition loaded_images (fs : filesystem) : PyDict.t (option image) :=
  snd (fst (load_signatories fs)).

(** no reference image in memory: no key, or the value [None] *)
Definition no_image (name : string) (imgs : PyDict.t (option image)) : Prop :=
  PyDict.get name imgs = None \/ PyDict.get name imgs = Some None.

(** one call of [save_signatories]: what the environment does and the
    roster that is saved *)
Definition mutation : Type := io * PyDict.t Z * PyDict.t (option image).

Fixpoint mutations (fs : filesystem) (steps : list mutation) : filesystem :=
  match steps with
  | [] => fs
  | (env, sigs, imgs) :: rest =>
      mutations (snd (fst (save_signatories env fs sigs imgs))) rest
  end.

(** the name of the backup that a mutation creates *)
Definition stamp (m : mutation) : string := backup_name (now (fst (fst m))).

Definition removals_succeed (env : io) : Prop := forall f, remove_ok env f = true.

(** nothing fails during the mutation *)
Definition fault_free (env : io) : Prop :=
  copy_ok env = true /\ removals_succeed env /\ write env = WriteOk.

(** the mutations that find a registry file to copy: all of them, or all
    but the first when the file does not exist yet *)
Definition backed_up (fs : filesystem) (steps : list mutation) : list mutation :=
  match signatories_file fs with
  | Some _ => steps
  | None => tl steps
  end.

Definition str_le (a b : string) : Prop := String.leb a b = true.

Definition str_lt (a b : string) : Prop := String.ltb a b = true.

Definition ascending (l : list string) : Prop := StronglySorted str_le l.

(** line 68, the complement of [backups[:-5]]: the five last names *)
Definition last5 (l : list string) : list string := skipn (length l - 5) l.

(** ** Concrete values used in examples *)

Module Ex.

Definition roster : PyDict.t Z := [("Alice", 1000%Z); ("Bob", 500%Z)].

(** a reply that states no [STATUS:] line *)
Definition unmarked_reply : string :=
  "סכום החשבונית: 1200 ש״ח. החתימה נמצאת בתחתית הדף.".

(** a reply that carries two [STATUS:] lines *)
Definition two_marker_reply : string :=
  ("STATUS: לא תקין" ++ nl ++ "STATUS: תקין")%string.

Definition bob_reply : string :=
  "סכום: 700. STATUS: לא תקין. the signer appears to be Bob".

Definition rgb (n : nat) : image :=
  {| img_format := "JPEG"; img_mode := "RGB"; img_pixels := n |}.

(** a palette image, which PIL does not write as JPEG *)
Definition palette (n : nat) : image :=
  {| img_format := "PNG"; img_mode := "P"; img_pixels := n |}.

(** a codec that accepts RGB and greyscale only *)
Definition jpeg (im : image) : option string :=
  if String.eqb (img_mode im) "RGB" || String.eqb (img_mode im) "L"
  then Some ("b64:" ++ PyStr.of_int (Z.of_nat (img_pixels im)))%string
  else None.

Definition replies (text : string) : list content_item -> http_outcome :=
  fun _ => Body (Some [TextItem text]).

Definition idle : session_state :=
  {| signatories := roster; signature_images := [];
     verification_result := None; show_verification_modal := false;
     verification_in_progress := false; ss_status_code := unclear |}.

Definition busy : session_state :=
  {| signatories := roster; signature_images := [];
     verification_result := None; show_verification_modal := true;
     verification_in_progress := true; ss_status_code := unclear |}.

Definition quiet (timestamp : string) : io :=
  {| now := timestamp; copy_ok := true; remove_ok := fun _ => true;
     image_save_ok := fun _ _ => true;
     reopened := fun im _ => im; write := WriteOk |}.

Definition empty_fs : filesystem :=
  {| signatories_file := None; backups_dir := []; other_files := [] |}.

Definition alice_entry : entry :=
  {| max_amount := 1000; signature_image_path := None |}.

Definition alice_fs : filesystem :=
  {| signatories_file := Some (Whole [("Alice", alice_entry)]);
     backups_dir := []; other_files := [] |}.

Definition bob_data : PyDict.t entry :=
  [("Alice", alice_entry);
   ("Bob", {| max_amount := 500;
              signature_image_path := Some "signatures/Bob_signature.jpg" |})].

(** the registry names an image file for Bob that is not there *)
Definition bob_fs : filesystem :=
  {| signatories_file := Some (Whole bob_data);
     backups_dir := []; other_files := [] |}.

(** images added in the order Bob, Alice *)
Definition bob_then_alice : PyDict.t (option image) :=
  [("Bob", Some (rgb 2)); ("Alice", Some (rgb 1))].

End Ex.

Module ExBackups.

Definition at_second (timestamp : string) : mutation :=
  (Ex.quiet timestamp, Ex.roster, []).

(** six mutations, one second apart *)
Definition six_seconds : list mutation :=
  map at_second ["20240101_120000"; "20240101_120001"; "20240101_120002";
                 "20240101_120003"; "20240101_120004"; "20240101_120005"].

(** six mutations, the second and the third within the same second *)
Definition double_click : list mutation :=
  map at_second ["20240101_120000"; "20240101_120001"; "20240101_120001";
                 "20240101_120002"; "20240101_120003"; "20240101_120004"].


(** the registry of Alice beside five backups whose names sort after
    the name of a backup made on 1 January 2024 *)
Definition later_backups : filesystem :=
  {| signatories_file := Some (Whole [("Alice", Ex.alice_entry)]);
     backups_dir :=
       map (fun t => (backup_name t, Whole []))
           ["20250101_000000"; "20250102_000000"; "20250103_000000";
            "20250104_000000"; "20250105_000000"];
     other_files := [] |}.

(** the registry of Alice beside six older backups *)
Definition six_older_backups : filesystem :=
  {| signatories_file := Some (Whole [("Alice", Ex.alice_entry)]);
     backups_dir :=
       map (fun t => (backup_name t, Whole []))
           ["20230101_000000"; "20230102_000000"; "20230103_000000";
            "20230104_000000"; "20230105_000000"; "20230106_000000"];
     other_files := [] |}.

(** an environment in which the oldest of these backups cannot be
    removed, and every other file can *)
Definition picky_removal : io :=
  {| now := "20240101_120000"; copy_ok := true;
     remove_ok := fun f => negb (String.eqb f (backup_name "20230101_000000"));
     image_save_ok := fun _ _ => true;
     reopened := fun im _ => im; write := WriteOk |}.

End ExBackups.

(** ** Further parts of the program *)

(** lines 366-368 and 530-532 of main.py: the dialog is closed *)
Definition close_dialog (s : session_state) : session_state :=
  {| signatories := signatories s;
     signature_images := signature_images s;
     verification_result := verification_result s;
     show_verification_modal := false;
     verification_in_progress := verification_in_progress s;
     ss_status_code := ss_status_code s |}.

(** what a dictionary of the session must satisfy: unique keys, and a
    reference image only for a registered name *)
Definition session_ok (s : session_state) : Prop :=
  NoDup (PyDict.keys (signatories s)) /\
  NoDup (PyDict.keys (signature_images s)) /\
  forall name, In name (PyDict.keys (signature_images s)) ->
               In name (PyDict.keys (signatories s)).

(** the session states and file systems that the handlers of [main]
    produce, starting from a load of the registry; the dialog runs a
    verification only when it is shown (line 535) and in progress (line
    436), and offers its close button only when no verification is in
    progress (lines 478, 530) *)
Inductive reachable : session_state -> filesystem -> Prop :=
| reach_load (fs : filesystem) :
    reachable (initial_session fs) fs
| reach_upsert env s fs is_new new_name new_amount new_signature s' fs' msgs :
    reachable s fs ->
    upsert_click env s fs is_new new_name new_amount new_signature
    = Returns (s', fs', msgs) ->
    reachable s' fs'
| reach_remove env s fs name s' fs' msgs :
    reachable s fs ->
    remove_click env s fs name = Returns (s', fs', msgs) ->
    reachable s' fs'
| reach_start s fs s' :
    reachable s fs ->
    start_verification s = Returns s' ->
    reachable s' fs
| reach_run jpeg http invoice_image s fs :
    reachable s fs ->
    show_verification_modal s = true ->
    verification_in_progress s = true ->
    reachable (run_verification jpeg http invoice_image s) fs
| reach_close s fs :
    reachable s fs ->
    verification_in_progress s = false ->
    reachable (close_dialog s) fs.

(** the character [c] occurs in [s] *)
Definition has_char (c : ascii) (s : string) : bool :=
  existsb (Ascii.eqb c) (list_ascii_of_string s).

(** the part of the file name that lines 156, 159 and 171 derive from the
    name of the signatory *)
Definition file_stem (name : string) : string :=
  PyStr.replace_char "/" "_" (PyStr.replace_char " " "_" name).

Module ExFiles.

(** a sample invoice on disk, beside the registry of Alice *)
Definition with_sample : filesystem :=
  {| signatories_file := Some (Whole [("Alice", Ex.alice_entry)]);
     backups_dir := [];
     other_files := [("invoice/a.png", Decodable (Ex.rgb 9))] |}.

(** Alice and Bob registered, the image of Bob on disk *)
Definition with_bob_image : filesystem :=
  {| signatories_file := Some (Whole Ex.bob_data);
     backups_dir := [];
     other_files := [("signatures/Bob_signature.jpg", Decodable (Ex.rgb 2))] |}.

(** a stray file in the backups directory *)
Definition with_note : filesystem :=
  {| signatories_file := Some (Whole [("Alice", Ex.alice_entry)]);
     backups_dir := [("README.txt", Whole [])];
     other_files := [] |}.

(** an environment in which no file can be removed *)
Definition no_removal : io :=
  {| now := "20240101_120000"; copy_ok := true; remove_ok := fun _ => false;
     image_save_ok := fun _ _ => true;
     reopened := fun im _ => im; write := WriteOk |}.

(** an environment whose JPEG codec is lossy: the raster read back
    differs from the one written, and a bilevel image comes back in grey
    levels *)
Definition lossy_jpeg : io :=
  {| now := "20240101_120000"; copy_ok := true; remove_ok := fun _ => true;
     image_save_ok := fun _ _ => true;
     reopened := fun im fmt =>
       if String.eqb fmt "JPEG"
       then {| img_format := fmt;
               img_mode := if String.eqb (img_mode im) "1" then "L" else img_mode im;
               img_pixels := S (img_pixels im) |}
       else im;
     write := WriteOk |}.

(** what [os.listdir] shows of the invoice directory, in its order *)
Definition invoice_listing : list string :=
  ["c.png"; "notes.txt"; "b.jpg"; ".hidden.jpg"; "d.JPG"; "a.jpeg"].

(** the registry of Alice and Bob, neither with an image *)
Definition roster_fs : filesystem :=
  {| signatories_file :=
       Some (Whole [("Alice", Ex.alice_entry);
                    ("Bob", {| max_amount := 500; signature_image_path := None |})]);
     backups_dir := []; other_files := [] |}.

End ExFiles.

(** lines 154-159: extension and format chosen for the file of an image *)
Definition signature_ext (img : image) : string :=
  if String.eqb (img_mode img) "RGBA" then "png" else "jpg".

Definition signature_format (img : image) : string :=
  if String.eqb (img_mode img) "RGBA" then "PNG" else "JPEG".

(** ** main.py: the sample invoices *)

Definition SAMPLE_INVOICES_DIR : string := "invoice".

(** [s.endswith(suffix)]: what the pattern "*" + suffix asks of a name *)
Fixpoint endswith (suffix s : string) : bool :=
  if String.eqb suffix s then true
  else match s with
       | EmptyString => false
       | String _ rest => endswith suffix rest
       end.

(** [os.path.join(directory, name)] for a file name (POSIX) *)
Definition path_join (directory name : string) : string :=
  (directory ++ "/" ++ name)%string.

(** line 44: the patterns, each "*" followed by one of these *)
Definition sample_suffixes : list string :=
  [".jpg"; ".jpeg"; ".png"; ".webp"; ".heic"; ".heif"].

(** lines 45-46, [glob.glob(os.path.join(SAMPLE_INVOICES_DIR, "*" + suffix))]
    where [listing] is what [os.listdir] shows of the directory, in its
    order: "*" matches no leading dot, and the match is case-sensitive
    (POSIX) *)
Definition glob_star (listing : list string) (suffix : string) : list string :=
  map (path_join SAMPLE_INVOICES_DIR)
      (filter (fun name => negb (PyStr.startswith "." name) && endswith suffix name)
              listing).

(** lines 39-51 *)
Definition get_sample_invoices (listing : list string) : list string :=
  py_sorted (flat_map (glob_star listing) sample_suffixes).

(** [os.path.basename] (POSIX): the text after the last slash *)
Fixpoint basename (p : string) : string :=
  match p with
  | EmptyString => EmptyString
  | String c rest =>
      if has_char "/" rest then basename rest
      else if Ascii.eqb c "/" then rest else p
  end.

(** lines 406-412: the name shown for a sample, and the path rebuilt from
    the name that was selected *)
Definition selected_path (sample : string) : string :=
  path_join SAMPLE_INVOICES_DIR (basename sample).

(** a file that the sample selector lists: visible, with one of the
    extensions *)
Definition is_sample (name : string) : bool :=
  negb (PyStr.startswith "." name)
  && existsb (fun suffix => endswith suffix name) sample_suffixes.

(** * Properties *)

Unset Implicit Arguments.

(** ** Substring tests *)

Lemma contains_empty hay : PyStr.contains "" hay = true.
Proof. destruct hay; reflexivity. Qed.

(** ** The classifier of [call_claude_api] *)

Lemma parse_status_no_marker (result_text : string) :
  PyStr.contains marker_valid result_text = false ->
  PyStr.contains marker_invalid result_text = false ->
  PyStr.contains marker_unclear result_text = false ->
  parse_status result_text = unclear.
Proof.
  intros Hv Hi Hu. unfold parse_status. now rewrite Hv, Hi, Hu.
Qed.

Lemma parse_status_valid_first (result_text : string) :
  PyStr.contains marker_valid result_text = true ->
  parse_status result_text = valid.
Proof. intros Hv. unfold parse_status. now rewrite Hv. Qed.

(** the cascade as written: valid, then invalid, then unclear *)
Lemma parse_status_cascade (result_text : string) :
  parse_status result_text
  = if PyStr.contains marker_valid result_text then valid
    else if PyStr.contains marker_invalid result_text then invalid
         else unclear.
Proof.
  unfold parse_status.
  destruct (PyStr.contains marker_valid result_text),
           (PyStr.contains marker_invalid result_text),
           (PyStr.contains marker_unclear result_text); reflexivity.
Qed.


(** the same at the level of the returned dictionary *)
Lemma call_claude_api_default_unclear
      (jpeg : image -> option string) (http : list content_item -> http_outcome)
      (invoice_image : image) (sigs : PyDict.t Z) (imgs : PyDict.t (option image))
      (items : list content_item) (printed : list string) (content : list resp_item) :
  content_items jpeg invoice_image sigs imgs = inr (items, printed) ->
  http items = Body (Some content) ->
  PyStr.contains marker_valid (result_text_of content) = false ->
  PyStr.contains marker_invalid (result_text_of content) = false ->
  PyStr.contains marker_unclear (result_text_of content) = false ->
  call_claude_api jpeg http invoice_image sigs imgs
  = DataResponse (Some content) unclear.
Proof.
  intros Hitems Hhttp Hv Hi Hu. unfold call_claude_api.
  rewrite Hitems, Hhttp. now rewrite parse_status_no_marker.
Qed.

Lemma display_status_default (result_text : string) :
  PyStr.contains "לא תקין" result_text = false ->
  PyStr.contains "לא ברור" result_text = false ->
  display_status result_text = label_of valid.
Proof. intros Hi Hu. unfold display_status. now rewrite Hi, Hu. Qed.

(** C1 (code defect).  A reply without any [STATUS:] marker gets
    [status_code = unclear] from [call_claude_api], as specified, and
    that is what the session stores; the dialog of
    [show_verification_results] then classifies the same text again by
    keyword and shows the label of [valid]. *)
Theorem C1_unmarked_reply_is_shown_valid :
  PyStr.contains marker_valid Ex.unmarked_reply = false /\
  PyStr.contains marker_invalid Ex.unmarked_reply = false /\
  PyStr.contains marker_unclear Ex.unmarked_reply = false /\
  parse_status Ex.unmarked_reply = unclear /\
  (let s := run_verification Ex.jpeg (Ex.replies Ex.unmarked_reply) (Ex.rgb 0) Ex.busy in
   ss_status_code s = unclear /\
   show_verification_results s = Some (label_of valid, not_found)).
Proof. vm_compute. repeat split. Qed.

(** the order in which [call_claude_api] tests the markers (lines
    164-179): valid, then invalid, then unclear *)
Lemma parse_status_priority (result_text : string) :
  (PyStr.contains marker_valid result_text = true ->
   parse_status result_text = valid) /\
  (PyStr.contains marker_valid result_text = false ->
   PyStr.contains marker_invalid result_text = true ->
   parse_status result_text = invalid) /\
  (PyStr.contains marker_valid result_text = false ->
   PyStr.contains marker_invalid result_text = false ->
   parse_status result_text = unclear).
Proof.
  rewrite parse_status_cascade.
  repeat split; intros Hv; rewrite Hv; try intros Hi; try rewrite Hi; reflexivity.
Qed.

Lemma parse_status_priority_examples :
  parse_status Ex.two_marker_reply = valid /\
  parse_status Ex.bob_reply = invalid /\
  parse_status Ex.unmarked_reply = unclear.
Proof.
  split; [|split].
  - apply (proj1 (parse_status_priority Ex.two_marker_reply)).
    vm_compute. reflexivity.
  - apply (proj1 (proj2 (parse_status_priority Ex.bob_reply)));
      vm_compute; reflexivity.
  - apply (proj2 (proj2 (parse_status_priority Ex.unmarked_reply)));
      vm_compute; reflexivity.
Defined.

(** C2 (code defect).  The reply "STATUS: לא תקין" followed, on the next
    line, by "STATUS: תקין" holds both the marker of [invalid] and the
    marker of [valid].  [call_claude_api] tests the marker of [valid]
    first and gives [status_code = valid], not [invalid] as the priority
    cascade requires, and that is what the session stores; the dialog of
    [show_verification_results], which has a cascade of its own on the
    bare keywords, shows the label of [invalid] for the same text. *)
Theorem C2_both_markers_classified_valid :
  PyStr.contains marker_invalid Ex.two_marker_reply = true /\
  PyStr.contains marker_valid Ex.two_marker_reply = true /\
  parse_status Ex.two_marker_reply = valid /\
  parse_status Ex.two_marker_reply <> invalid /\
  display_status Ex.two_marker_reply = label_of invalid /\
  (let s := run_verification Ex.jpeg (Ex.replies Ex.two_marker_reply) (Ex.rgb 0) Ex.busy in
   ss_status_code s = valid /\
   show_verification_results s = Some (label_of invalid, not_found)).
Proof. vm_compute. repeat split. discriminate. Qed.

(** ** Signatory resolution *)

Lemma signatory_name_never_found (sigs : PyDict.t Z) (result_text : string) :
  signatory_name sigs result_text = not_found.
Proof. reflexivity. Qed.

(** C3 (code defect).  For the roster {"Alice": 1000, "Bob": 500} and a
    reply with the marker of [invalid] and the substring "Bob", the scan
    of the roster names finds "Bob" and the verdict is [invalid], but the
    test that follows the scan is always true and resets the name: the
    dialog shows "not found" instead of "Bob". *)
Theorem C3_matched_signatory_is_discarded :
  PyStr.contains marker_invalid Ex.bob_reply = true /\
  PyStr.contains "Bob" Ex.bob_reply = true /\
  parse_status Ex.bob_reply = invalid /\
  display_status Ex.bob_reply = label_of invalid /\
  scan_signatories Ex.roster Ex.bob_reply = "Bob" /\
  signatory_name Ex.roster Ex.bob_reply = not_found /\
  not_found <> "Bob".
Proof. vm_compute. repeat split. discriminate. Qed.

(** ** The "add / update" handler *)

(** C5 (as amended).  The handler guards the update with
    [new_name and new_amount > 0]: with an empty name or an amount that is
    negative (or zero) nothing is raised and nothing is shown, and the
    session, the registry file, its backups and the image files are all
    left as they were. *)
Theorem C5_rejected_upsert_changes_nothing
        (env : io) (s : session_state) (fs : filesystem) (is_new : bool)
        (new_name : string) (new_amount : Z) (new_signature : option image_file) :
  new_name = "" \/ (new_amount <= 0)%Z ->
  upsert_click env s fs is_new new_name new_amount new_signature = Returns (s, fs, []).
Proof.
  intros [Hname | Hamount]; unfold upsert_click.
  - subst new_name. reflexivity.
  - destruct (Z.gtb_spec new_amount 0) as [Hpos | _]; [lia|].
    now rewrite andb_false_r.
Qed.

Lemma C5_rejected_upsert_witness :
  upsert_click (Ex.quiet "20240101_120000") Ex.idle Ex.alice_fs true "Bob" (-1) None
  = Returns (Ex.idle, Ex.alice_fs, []).
Proof.
  apply C5_rejected_upsert_changes_nothing. right. lia.
Defined.

(** C5 as stated fails: with [max_amount = -1] the handler returns
    normally; no [ValidationError] (nor anything else) is raised. *)
Lemma C5_no_validation_error :
  upsert_click (Ex.quiet "20240101_120000") Ex.idle Ex.alice_fs true "Bob" (-1) None
  <> Raises "ValidationError".
Proof. vm_compute. discriminate. Qed.

(** ** The verification session *)

(** C7 (as amended).  [start_verification] tests nothing and raises
    nothing: from every session state, busy or not, it returns with
    [verification_in_progress] and [show_verification_modal] set, and with
    the roster, the stored result and the stored status code untouched; a
    verification that runs afterwards stores the same result and status
    code as it would have without the call, and clears the flag. *)
Theorem C7_start_verification_always_accepts (s : session_state) :
  exists s',
    start_verification s = Returns s' /\
    verification_in_progress s' = true /\
    show_verification_modal s' = true /\
    signatories s' = signatories s /\
    signature_images s' = signature_images s /\
    verification_result s' = verification_result s /\
    ss_status_code s' = ss_status_code s /\
    forall jpeg http invoice_image,
      verification_result (run_verification jpeg http invoice_image s')
      = verification_result (run_verification jpeg http invoice_image s) /\
      ss_status_code (run_verification jpeg http invoice_image s')
      = ss_status_code (run_verification jpeg http invoice_image s) /\
      verification_in_progress (run_verification jpeg http invoice_image s') = false.
Proof.
  eexists. split; [reflexivity|].
  repeat split; unfold run_verification; cbn;
    destruct (call_claude_api jpeg http invoice_image (signatories s) (signature_images s));
    reflexivity.
Qed.

(** C7 as stated fails: a start while a verification is in progress is
    accepted, and the state stays as it was. *)
Lemma C7_second_start_is_accepted :
  verification_in_progress Ex.busy = true /\
  start_verification Ex.busy = Returns Ex.busy /\
  start_verification Ex.busy <> Raises "ConcurrentVerificationError".
Proof. repeat split. discriminate. Qed.

(** ** Dictionaries *)

Section DictFacts.
Variable V : Type.
Implicit Types (d : PyDict.t V) (k : string) (v : V).

Lemma get_set_same k v d : PyDict.get k (PyDict.set k v d) = Some v.
Proof.
  induction d as [|[k' v'] d IH]; cbn.
  - now rewrite String.eqb_refl.
  - destruct (String.eqb k k') eqn:E; cbn; rewrite E; [reflexivity | exact IH].
Qed.

Lemma get_set_other k k' v d :
  k <> k' -> PyDict.get k (PyDict.set k' v d) = PyDict.get k d.
Proof.
  intros Hne. induction d as [|[k0 v0] d IH]; cbn.
  - apply String.eqb_neq in Hne. now rewrite Hne.
  - destruct (String.eqb k' k0) eqn:E; cbn.
    + apply String.eqb_eq in E. subst k0.
      apply String.eqb_neq in Hne. now rewrite Hne.
    + now rewrite IH.
Qed.

Lemma get_notin k d : ~ In k (PyDict.keys d) -> PyDict.get k d = None.
Proof.
  induction d as [|[k' v'] d IH]; cbn; [reflexivity|].
  intros Hnot. destruct (String.eqb_spec k k') as [->|Hne].
  - exfalso. apply Hnot. now left.
  - apply IH. intros Hin. apply Hnot. now right.
Qed.

Lemma get_in k v d : PyDict.get k d = Some v -> In (k, v) d.
Proof.
  induction d as [|[k' v'] d IH]; cbn; [discriminate|].
  destruct (String.eqb_spec k k') as [->|Hne].
  - intros [= ->]. now left.
  - intros H. right. now apply IH.
Qed.

Lemma set_fresh k v d : ~ In k (PyDict.keys d) -> PyDict.set k v d = d ++ [(k, v)].
Proof.
  induction d as [|[k' v'] d IH]; cbn; [reflexivity|].
  intros Hnot. destruct (String.eqb_spec k k') as [->|Hne].
  - exfalso. apply Hnot. now left.
  - f_equal. apply IH. intros Hin. apply Hnot. now right.
Qed.

Lemma set_last k v v' d :
  ~ In k (PyDict.keys d) -> PyDict.set k v' (d ++ [(k, v)]) = d ++ [(k, v')].
Proof.
  induction d as [|[k0 v0] d IH]; cbn.
  - now rewrite String.eqb_refl.
  - intros Hnot. destruct (String.eqb_spec k k0) as [->|Hne].
    + exfalso. apply Hnot. now left.
    + f_equal. apply IH. intros Hin. apply Hnot. now right.
Qed.

Lemma keys_app d d' : PyDict.keys (d ++ d') = PyDict.keys d ++ PyDict.keys d'.
Proof. apply map_app. Qed.

End DictFacts.

(** ** Saving and loading the registry *)

Lemma keys_limits data : PyDict.keys (limits data) = PyDict.keys data.
Proof. unfold PyDict.keys, limits. rewrite map_map. reflexivity. Qed.

Lemma limits_app d d' : limits (d ++ d') = limits d ++ limits d'.
Proof. apply map_app. Qed.

Lemma save_entry_limits env imgs acc name amount :
  ~ In name (PyDict.keys (sv_data acc)) ->
  limits (sv_data (save_entry env imgs acc (name, amount)))
  = limits (sv_data acc) ++ [(name, amount)].
Proof.
  intros Hfresh. unfold save_entry.
  rewrite set_fresh by exact Hfresh.
  destruct (PyDict.get name imgs) as [[img|]|]; cbn;
    try (rewrite limits_app; reflexivity).
  destruct (image_save_ok env img _); cbn;
    [| destruct (image_save_ok env _ _); cbn ];
    try rewrite set_last by exact Hfresh;
    rewrite limits_app; reflexivity.
Qed.

Lemma save_fold_limits env imgs sigs : forall acc,
  NoDup (PyDict.keys (sv_data acc) ++ PyDict.keys sigs) ->
  limits (sv_data (fold_left (save_entry env imgs) sigs acc))
  = limits (sv_data acc) ++ sigs.
Proof.
  induction sigs as [|[name amount] sigs IH]; intros acc Hnd; cbn [fold_left].
  - now rewrite app_nil_r.
  - assert (Hfresh : ~ In name (PyDict.keys (sv_data acc))).
    { cbn in Hnd. apply NoDup_remove_2 in Hnd. intros Hin. apply Hnd.
      apply in_or_app. now left. }
    pose proof (save_entry_limits env imgs acc name amount Hfresh) as Hstep.
    rewrite IH.
    + rewrite Hstep. now rewrite <- app_assoc.
    + rewrite <- keys_limits, Hstep.
      rewrite keys_app, keys_limits, <- app_assoc. exact Hnd.
Qed.

Lemma load_entry_signatories files acc item :
  ld_signatories (load_entry files acc item)
  = PyDict.set (fst item) (max_amount (snd item)) (ld_signatories acc).
Proof.
  destruct item as [name data]. unfold load_entry.
  destruct (signature_image_path data) as [p|]; [|reflexivity].
  destruct (PyDict.get p files) as [f|]; [|reflexivity].
  destruct (safe_open_image f). reflexivity.
Qed.

Lemma load_fold_signatories files data : forall acc,
  NoDup (PyDict.keys (ld_signatories acc) ++ PyDict.keys data) ->
  ld_signatories (fold_left (load_entry files) data acc)
  = ld_signatories acc ++ limits data.
Proof.
  induction data as [|[name e] data IH]; intros acc Hnd; cbn [fold_left].
  - cbn. now rewrite app_nil_r.
  - assert (Hfresh : ~ In name (PyDict.keys (ld_signatories acc))).
    { cbn in Hnd. apply NoDup_remove_2 in Hnd. intros Hin. apply Hnd.
      apply in_or_app. now left. }
    assert (Hstep : ld_signatories (load_entry files acc (name, e))
                    = ld_signatories acc ++ [(name, max_amount e)]).
    { rewrite load_entry_signatories. cbn. now apply set_fresh. }
    rewrite IH; rewrite Hstep.
    + now rewrite <- app_assoc.
    + rewrite keys_app, <- app_assoc. exact Hnd.
Qed.

(** C8.  For every valid roster (unique non-empty names, non-negative
    limits), whatever the reference images and the files already present,
    a [save_signatories] that reports success followed by
    [load_signatories] gives back the same names with the same limits (in
    the same order). *)
Theorem C8_save_then_load_roundtrip
        (env : io) (fs fs' : filesystem) (sigs : PyDict.t Z)
        (imgs : PyDict.t (option image)) (msgs : list ui_msg) :
  valid_roster sigs ->
  save_signatories env fs sigs imgs = (true, fs', msgs) ->
  fst (fst (load_signatories fs')) = sigs.
Proof.
  intros [Hnd _] Hsave. unfold save_signatories in Hsave.
  destruct (backup_signatories_file env fs) as [fs1|]; [|discriminate].
  destruct (write env); try discriminate.
  injection Hsave as <- _. unfold load_signatories. cbn.
  pose proof (save_fold_limits env imgs sigs
                {| sv_data := []; sv_files := other_files fs1; sv_msgs := [] |}) as Hdata.
  cbn in Hdata. specialize (Hdata Hnd).
  rewrite load_fold_signatories; cbn.
  - exact Hdata.
  - rewrite <- keys_limits, Hdata. exact Hnd.
Qed.

Lemma C8_roundtrip_witness :
  fst (fst (load_signatories
              (snd (fst (save_signatories (Ex.quiet "20240101_120000") Ex.alice_fs
                                          Ex.roster [("Bob", Some (Ex.rgb 7))])))))
  = Ex.roster.
Proof.
  apply (C8_save_then_load_roundtrip
           (Ex.quiet "20240101_120000") Ex.alice_fs _ Ex.roster
           [("Bob", Some (Ex.rgb 7))]
           (snd (save_signatories (Ex.quiet "20240101_120000") Ex.alice_fs
                                  Ex.roster [("Bob", Some (Ex.rgb 7))]))).
  - split.
    + repeat constructor; cbn; intuition discriminate.
    + repeat constructor; cbn; discriminate.
  - vm_compute. reflexivity.
Defined.

Lemma get_limits name data :
  PyDict.get name (limits data) = option_map max_amount (PyDict.get name data).
Proof.
  induction data as [|[k e] data IH]; cbn; [reflexivity|].
  destruct (String.eqb name k); [reflexivity | exact IH].
Qed.

Lemma save_entry_get_other env imgs acc name n amount :
  name <> n ->
  PyDict.get name (sv_data (save_entry env imgs acc (n, amount)))
  = PyDict.get name (sv_data acc).
Proof.
  intros Hne. unfold save_entry.
  destruct (PyDict.get n imgs) as [[img|]|]; cbn;
    try (now rewrite get_set_other).
  destruct (image_save_ok env img _); cbn;
    [| destruct (image_save_ok env _ _); cbn ];
    now rewrite ?get_set_other.
Qed.

Lemma save_fold_get_notin env imgs name sigs : forall acc,
  ~ In name (PyDict.keys sigs) ->
  PyDict.get name (sv_data (fold_left (save_entry env imgs) sigs acc))
  = PyDict.get name (sv_data acc).
Proof.
  induction sigs as [|[n amount] sigs IH]; intros acc Hnot; cbn [fold_left];
    [reflexivity|].
  rewrite IH.
  - apply save_entry_get_other. intros ->. apply Hnot. now left.
  - intros Hin. apply Hnot. now right.
Qed.

Lemma save_entry_get_no_image env imgs acc name amount :
  no_image name imgs ->
  PyDict.get name (sv_data (save_entry env imgs acc (name, amount)))
  = Some {| max_amount := amount; signature_image_path := None |}.
Proof.
  intros [Hno | Hno]; unfold save_entry; rewrite Hno; cbn; apply get_set_same.
Qed.

Lemma save_fold_get_no_image env imgs name amount sigs : forall acc,
  NoDup (PyDict.keys sigs) ->
  PyDict.get name sigs = Some amount ->
  no_image name imgs ->
  PyDict.get name (sv_data (fold_left (save_entry env imgs) sigs acc))
  = Some {| max_amount := amount; signature_image_path := None |}.
Proof.
  induction sigs as [|[n a] sigs IH]; intros acc Hnd Hget Hno; [discriminate|].
  cbn in Hnd. apply NoDup_cons_iff in Hnd as [Hnotin Hnd].
  cbn [fold_left]. cbn in Hget.
  destruct (String.eqb_spec name n) as [->|Hne].
  - injection Hget as ->.
    rewrite save_fold_get_notin by exact Hnotin.
    now apply save_entry_get_no_image.
  - now apply IH.
Qed.

Lemma load_entry_images_other files acc name n e :
  name <> n ->
  PyDict.get name (ld_signature_images (load_entry files acc (n, e)))
  = PyDict.get name (ld_signature_images acc).
Proof.
  intros Hne. unfold load_entry.
  destruct (signature_image_path e) as [p|]; [|reflexivity].
  destruct (PyDict.get p files) as [f|]; [|reflexivity].
  destruct (safe_open_image f). cbn. now apply get_set_other.
Qed.

Lemma load_fold_images_notin files name data : forall acc,
  ~ In name (PyDict.keys data) ->
  PyDict.get name (ld_signature_images (fold_left (load_entry files) data acc))
  = PyDict.get name (ld_signature_images acc).
Proof.
  induction data as [|[n e] data IH]; intros acc Hnot; cbn [fold_left];
    [reflexivity|].
  rewrite IH.
  - apply load_entry_images_other. intros ->. apply Hnot. now left.
  - intros Hin. apply Hnot. now right.
Qed.

Lemma load_entry_unreadable files acc name amount p :
  PyDict.get p files = None \/ PyDict.get p files = Some Corrupt ->
  PyDict.get name (ld_signature_images acc) = None ->
  no_image name
    (ld_signature_images
       (load_entry files acc
          (name, {| max_amount := amount; signature_image_path := Some p |}))).
Proof.
  intros [Hp | Hp] Hacc; unfold load_entry; cbn; rewrite Hp; cbn.
  - now left.
  - right. apply get_set_same.
Qed.

Lemma load_fold_unreadable files name amount p data : forall acc,
  NoDup (PyDict.keys data) ->
  PyDict.get name data
  = Some {| max_amount := amount; signature_image_path := Some p |} ->
  PyDict.get p files = None \/ PyDict.get p files = Some Corrupt ->
  PyDict.get name (ld_signature_images acc) = None ->
  no_image name (ld_signature_images (fold_left (load_entry files) data acc)).
Proof.
  induction data as [|[n e] data IH]; intros acc Hnd Hget Hp Hacc; [discriminate|].
  cbn in Hnd. apply NoDup_cons_iff in Hnd as [Hnotin Hnd].
  cbn [fold_left]. cbn in Hget.
  destruct (String.eqb_spec name n) as [->|Hne].
  - injection Hget as ->. unfold no_image.
    rewrite load_fold_images_notin by exact Hnotin.
    now apply load_entry_unreadable.
  - apply IH; auto.
    now rewrite load_entry_images_other.
Qed.

(** C10.  When the registry file stores an image path for a signatory and
    that path is missing, or its content does not decode, at load time,
    the signatory is loaded with its limit and without an image; any
    later successful save of a roster that still lists the signatory, and
    in which nobody gave it a new image, writes its entry without
    [signature_image_path]: the stored path is gone from the registry
    file, whichever other entries that save was about. *)
Theorem C10_failed_image_load_drops_path
        (fs : filesystem) (data : PyDict.t entry) (name p : string) (amount : Z)
        (env : io) (fs0 fs' : filesystem) (sigs' : PyDict.t Z)
        (imgs' : PyDict.t (option image)) (amount' : Z) (msgs : list ui_msg) :
  signatories_file fs = Some (Whole data) ->
  NoDup (PyDict.keys data) ->
  PyDict.get name data
  = Some {| max_amount := amount; signature_image_path := Some p |} ->
  PyDict.get p (other_files fs) = None \/ PyDict.get p (other_files fs) = Some Corrupt ->
  NoDup (PyDict.keys sigs') ->
  PyDict.get name sigs' = Some amount' ->
  PyDict.get name imgs' = PyDict.get name (loaded_images fs) ->
  save_signatories env fs0 sigs' imgs' = (true, fs', msgs) ->
  PyDict.get name (loaded_signatories fs) = Some amount /\
  no_image name (loaded_images fs) /\
  exists data',
    signatories_file fs' = Some (Whole data') /\
    PyDict.get name data'
    = Some {| max_amount := amount'; signature_image_path := None |}.
Proof.
  intros Hfile Hnd Hget Hp Hnd' Hget' Himg Hsave.
  assert (Hloaded : no_image name (loaded_images fs)).
  { unfold loaded_images, load_signatories. rewrite Hfile. cbn.
    now apply load_fold_unreadable with (amount := amount) (p := p). }
  split; [|split; [exact Hloaded|]].
  - unfold loaded_signatories, load_signatories. rewrite Hfile. cbn.
    rewrite load_fold_signatories by exact Hnd. cbn.
    rewrite get_limits, Hget. reflexivity.
  - unfold save_signatories in Hsave.
    destruct (backup_signatories_file env fs0) as [fs1|]; [|discriminate].
    destruct (write env); try discriminate.
    injection Hsave as <- _. eexists. split; [reflexivity|].
    apply save_fold_get_no_image; auto.
    unfold no_image. rewrite Himg. exact Hloaded.
Qed.

Lemma C10_lost_path_witness :
  PyDict.get "Bob" (loaded_signatories Ex.bob_fs) = Some 500%Z /\
  no_image "Bob" (loaded_images Ex.bob_fs) /\
  exists data',
    signatories_file
      (snd (fst (save_signatories (Ex.quiet "20240101_120000") Ex.bob_fs
                   (PyDict.set "Alice" 2000%Z (loaded_signatories Ex.bob_fs))
                   (loaded_images Ex.bob_fs))))
    = Some (Whole data') /\
    PyDict.get "Bob" data'
    = Some {| max_amount := 500; signature_image_path := None |}.
Proof.
  apply (C10_failed_image_load_drops_path
           Ex.bob_fs Ex.bob_data "Bob" "signatures/Bob_signature.jpg" 500%Z
           (Ex.quiet "20240101_120000") Ex.bob_fs _
           (PyDict.set "Alice" 2000%Z (loaded_signatories Ex.bob_fs))
           (loaded_images Ex.bob_fs) 500%Z
           (snd (save_signatories (Ex.quiet "20240101_120000") Ex.bob_fs
                   (PyDict.set "Alice" 2000%Z (loaded_signatories Ex.bob_fs))
                   (loaded_images Ex.bob_fs)))).
  - reflexivity.
  - repeat constructor; cbn; intuition discriminate.
  - reflexivity.
  - left. reflexivity.
  - repeat constructor; cbn; intuition discriminate.
  - reflexivity.
  - reflexivity.
  - vm_compute. reflexivity.
Defined.

(** the same through the handler: the limit of Alice is edited, the path
    of Bob disappears from the registry file *)
Example upsert_of_alice_drops_path_of_bob :
  exists s' m,
    upsert_click (Ex.quiet "20240101_120000") (initial_session Ex.bob_fs) Ex.bob_fs
                 false "Alice" 2000 None
    = Returns (s', {| signatories_file :=
                        Some (Whole [("Alice", {| max_amount := 2000;
                                                  signature_image_path := None |});
                                     ("Bob", {| max_amount := 500;
                                                signature_image_path := None |})]);
                      backups_dir :=
                        [("signatories_backup_20240101_120000.json", Whole Ex.bob_data)];
                      other_files := [] |}, m).
Proof. eexists. eexists. vm_compute. reflexivity. Qed.

(** ** Composing the request *)

Lemma append_nil_r (s : string) : (s ++ "")%string = s.
Proof. induction s as [|c s IH]; cbn; [reflexivity | now rewrite IH]. Qed.

Lemma append_assoc (s t u : string) : ((s ++ t) ++ u)%string = (s ++ t ++ u)%string.
Proof. induction s as [|c s IH]; cbn; [reflexivity | now rewrite IH]. Qed.

Lemma concat_cons (x : string) (l : list string) :
  String.concat "" (x :: l) = (x ++ String.concat "" l)%string.
Proof. destruct l; cbn; [now rewrite append_nil_r | reflexivity]. Qed.

(** the instruction lists every signatory with its limit, one line each,
    in the order of [signatories.items()] *)
Lemma signatories_info_lines (sigs : PyDict.t Z) :
  signatories_info sigs
  = (info_header ++ String.concat "" (map info_line sigs))%string.
Proof.
  unfold signatories_info. generalize info_header as init.
  induction sigs as [|item sigs IH]; intros init; cbn [fold_left map].
  - cbn. now rewrite append_nil_r.
  - rewrite IH, concat_cons. apply append_assoc.
Qed.

Lemma fold_add_signature jpeg imgs : forall items printed,
  fold_left (add_signature jpeg) imgs (items, printed)
  = (items ++ flat_map (appended_parts jpeg) imgs,
     printed ++ flat_map (encode_failure jpeg) imgs).
Proof.
  induction imgs as [|[name sig_image] imgs IH]; intros items printed;
    cbn [fold_left flat_map].
  - now rewrite !app_nil_r.
  - unfold add_signature at 2, appended_parts at 1, encode_failure at 1.
    cbn [fst snd].
    destruct sig_image as [im|]; [|apply IH].
    destruct (encode_image jpeg im) as [b64|]; rewrite IH;
      now rewrite <- !app_assoc.
Qed.

Lemma image_parts_appended jpeg imgs :
  filter is_image_part (flat_map (appended_parts jpeg) imgs)
  = flat_map (reference_image jpeg) imgs.
Proof.
  induction imgs as [|[name sig_image] imgs IH]; [reflexivity|].
  cbn [flat_map]. rewrite filter_app, IH. f_equal.
  unfold appended_parts, reference_image, usable. cbn [fst snd].
  destruct sig_image as [im|]; [|reflexivity].
  destruct (encode_image jpeg im); reflexivity.
Qed.

Lemma appended_when_encodable jpeg imgs :
  forallb (encodable jpeg) imgs = true ->
  flat_map (appended_parts jpeg) imgs = flat_map (reference_parts jpeg) imgs /\
  flat_map (encode_failure jpeg) imgs = [].
Proof.
  induction imgs as [|[name sig_image] imgs IH]; [now split|].
  cbn [forallb flat_map]. intros Hall.
  apply andb_true_iff in Hall as [Hhead Hall].
  destruct (IH Hall) as [-> ->].
  unfold appended_parts, reference_parts, encode_failure, usable, encodable in *.
  cbn [fst snd] in *.
  destruct sig_image as [im|]; [|now split].
  destruct (encode_image jpeg im); [now split | discriminate].
Qed.

Lemma appended_blocks jpeg imgs :
  Forall2 (reference_block jpeg) imgs (map (appended_parts jpeg) imgs).
Proof.
  induction imgs as [|[name sig_image] imgs IH]; cbn [map]; constructor; [|exact IH].
  unfold reference_block, appended_parts. cbn [fst snd].
  destruct sig_image as [im|]; [|reflexivity].
  destruct (encode_image jpeg im); reflexivity.
Qed.

(** C9 (as amended).  When the invoice image encodes, the request is: the
    instruction part, which lists every signatory and limit in the order
    of [signatories]; then the invoice image part; then one block of
    parts for each entry of [signature_images], in the iteration order of
    that dictionary (a dictionary of its own, not ordered like
    [signatories]).  The block of an entry without image is empty; the
    block of an image that encodes is exactly a label part followed by
    that image part; the block of an image that fails to encode holds no
    image part, and a warning is printed for each such image.  So the
    image parts are exactly the images that are on file and encode, in
    that order, and when every image on file encodes the reference parts
    are exactly label and image of each, and nothing is printed. *)
Theorem C9_request_follows_signature_images
        (jpeg : image -> option string) (invoice_image : image)
        (sigs : PyDict.t Z) (imgs : PyDict.t (option image)) (b64 : string) :
  encode_image jpeg invoice_image = Some b64 ->
  exists parts printed,
    content_items jpeg invoice_image sigs imgs
    = inr (instruction sigs :: jpeg_part b64 :: parts, printed) /\
    instruction sigs
    = TextPart (prompt_preamble ++ info_header
                ++ String.concat "" (map info_line sigs))%string /\
    (exists blocks, parts = concat blocks /\
                    Forall2 (reference_block jpeg) imgs blocks) /\
    filter is_image_part parts = flat_map (reference_image jpeg) imgs /\
    printed = flat_map (encode_failure jpeg) imgs /\
    (forallb (encodable jpeg) imgs = true ->
     parts = flat_map (reference_parts jpeg) imgs /\ printed = []).
Proof.
  intros Hinvoice. unfold content_items. rewrite Hinvoice.
  rewrite fold_add_signature. cbn [app].
  eexists. eexists. split; [reflexivity|].
  split; [unfold instruction; now rewrite signatories_info_lines|].
  split.
  { exists (map (appended_parts jpeg) imgs).
    split; [apply flat_map_concat_map | apply appended_blocks]. }
  split; [apply image_parts_appended|].
  split; [reflexivity|].
  apply appended_when_encodable.
Qed.

Lemma C9_request_witness :
  let sigs := [("Alice", 1000%Z); ("Bob", 500%Z); ("Carol", 300%Z); ("Dan", 200%Z)] in
  let imgs := [("Bob", Some (Ex.rgb 2)); ("Carol", None);
               ("Alice", Some (Ex.palette 1)); ("Dan", Some (Ex.rgb 3))] in
  exists parts printed,
    content_items Ex.jpeg (Ex.rgb 0) sigs imgs
    = inr (instruction sigs :: jpeg_part "b64:0" :: parts, printed) /\
    instruction sigs
    = TextPart (prompt_preamble ++ info_header
                ++ String.concat "" (map info_line sigs))%string /\
    (exists blocks, parts = concat blocks /\
                    Forall2 (reference_block Ex.jpeg) imgs blocks) /\
    filter is_image_part parts = flat_map (reference_image Ex.jpeg) imgs /\
    printed = flat_map (encode_failure Ex.jpeg) imgs /\
    (forallb (encodable Ex.jpeg) imgs = true ->
     parts = flat_map (reference_parts Ex.jpeg) imgs /\ printed = []).
Proof.
  apply (C9_request_follows_signature_images
           Ex.jpeg (Ex.rgb 0)
           [("Alice", 1000%Z); ("Bob", 500%Z); ("Carol", 300%Z); ("Dan", 200%Z)]
           [("Bob", Some (Ex.rgb 2)); ("Carol", None);
            ("Alice", Some (Ex.palette 1)); ("Dan", Some (Ex.rgb 3))] "b64:0").
  reflexivity.
Defined.

(** the blocks of that request: label and image of Bob, nothing for
    Carol, no image part for Alice, whose image does not encode, then
    label and image of Dan; one warning, for Alice *)
Example mixed_roster_blocks :
  let sigs := [("Alice", 1000%Z); ("Bob", 500%Z); ("Carol", 300%Z); ("Dan", 200%Z)] in
  let imgs := [("Bob", Some (Ex.rgb 2)); ("Carol", None);
               ("Alice", Some (Ex.palette 1)); ("Dan", Some (Ex.rgb 3))] in
  exists alice_block,
    content_items Ex.jpeg (Ex.rgb 0) sigs imgs
    = inr (instruction sigs :: jpeg_part "b64:0"
           :: concat [[label "Bob"; jpeg_part "b64:2"]; []; alice_block;
                      [label "Dan"; jpeg_part "b64:3"]],
           [encode_warning "Alice"]) /\
    filter is_image_part alice_block = [].
Proof. exists [label "Alice"]. split; reflexivity. Qed.

(** C9 as stated fails: with the roster Alice, Bob and reference images
    added in the order Bob, Alice, the reference parts of Bob precede
    those of Alice, whereas the order of the roster puts Alice first. *)
Lemma C9_reference_parts_not_in_roster_order :
  request_of (content_items Ex.jpeg (Ex.rgb 0) Ex.roster Ex.bob_then_alice)
  = Some [instruction Ex.roster; jpeg_part "b64:0";
          label "Bob"; jpeg_part "b64:2"; label "Alice"; jpeg_part "b64:1"] /\
  request_as_specified Ex.jpeg "b64:0" Ex.roster Ex.bob_then_alice
  = [instruction Ex.roster; jpeg_part "b64:0";
     label "Alice"; jpeg_part "b64:1"; label "Bob"; jpeg_part "b64:2"] /\
  request_of (content_items Ex.jpeg (Ex.rgb 0) Ex.roster Ex.bob_then_alice)
  <> Some (request_as_specified Ex.jpeg "b64:0" Ex.roster Ex.bob_then_alice).
Proof.
  split; [reflexivity|]. split; [reflexivity|].
  vm_compute. discriminate.
Qed.

(** that session state is reached by adding Alice, adding Bob, then
    uploading the signature of Bob and after it the one of Alice *)
Example bob_then_alice_is_reachable :
  let env := Ex.quiet "20240101_120000" in
  let step (r : completion (session_state * filesystem * list ui_msg))
           is_new name amount upload :=
      match r with
      | Returns (s, fs, _) => upsert_click env s fs is_new name amount upload
      | Raises e => Raises e
      end in
  let r1 := upsert_click env (initial_session Ex.empty_fs) Ex.empty_fs
                         true "Alice" 1000 None in
  let r2 := step r1 true "Bob" 500%Z None in
  let r3 := step r2 false "Bob" 500%Z (Some (Decodable (Ex.rgb 2))) in
  let r4 := step r3 false "Alice" 1000%Z (Some (Decodable (Ex.rgb 1))) in
  exists s fs m,
    r4 = Returns (s, fs, m) /\
    signatories s = Ex.roster /\
    signature_images s = Ex.bob_then_alice.
Proof. vm_compute. do 3 eexists. repeat split. Qed.

(** the label is appended before the encoding is tried: an image that
    does not encode leaves its label in the request, directly in front of
    the parts of the next signatory *)
Example failed_encoding_leaves_its_label :
  content_items Ex.jpeg (Ex.rgb 0) Ex.roster
                [("Alice", Some (Ex.palette 1)); ("Bob", Some (Ex.rgb 2))]
  = inr ([instruction Ex.roster; jpeg_part "b64:0";
          label "Alice"; label "Bob"; jpeg_part "b64:2"],
         [encode_warning "Alice"]).
Proof. reflexivity. Qed.

(** ** The order of file names and [sorted] *)

Lemma str_lt_iff a b : str_lt a b <-> OrderedTypeEx.String_as_OT.lt a b.
Proof.
  unfold str_lt, String.ltb. rewrite <- OrderedTypeEx.String_as_OT.cmp_lt.
  unfold OrderedTypeEx.String_as_OT.cmp.
  destruct (String.compare a b); split; congruence.
Qed.

Lemma str_le_iff a b : str_le a b <-> a = b \/ str_lt a b.
Proof.
  unfold str_le, str_lt, String.leb, String.ltb.
  destruct (String.compare a b) eqn:E.
  - apply String.compare_eq_iff in E. tauto.
  - tauto.
  - split; [discriminate|]. intros [->|H]; [|discriminate].
    assert (String.compare b b = Eq) as Hbb
        by now apply OrderedTypeEx.String_as_OT.cmp_eq.
    congruence.
Qed.

Lemma str_le_refl a : str_le a a.
Proof. apply str_le_iff. now left. Qed.

Lemma str_lt_trans a b c : str_lt a b -> str_lt b c -> str_lt a c.
Proof.
  rewrite !str_lt_iff. apply OrderedTypeEx.String_as_OT.lt_trans.
Qed.

Lemma str_lt_irrefl a : ~ str_lt a a.
Proof.
  rewrite str_lt_iff. intros H.
  now apply (OrderedTypeEx.String_as_OT.lt_not_eq a a H).
Qed.

Lemma str_le_trans a b c : str_le a b -> str_le b c -> str_le a c.
Proof.
  rewrite !str_le_iff. intros [->|Hab] [->|Hbc]; auto.
  right. eapply str_lt_trans; eauto.
Qed.

Lemma str_lt_le a b : str_lt a b -> str_le a b.
Proof. intros H. apply str_le_iff. now right. Qed.

Lemma str_le_antisym a b : str_le a b -> str_le b a -> a = b.
Proof. apply String.leb_antisym. Qed.

Lemma str_le_total a b : str_le a b \/ str_le b a.
Proof. apply String.leb_total. Qed.

Lemma insert_sorted_perm x l : Permutation (insert_sorted x l) (x :: l).
Proof.
  induction l as [|y l IH]; cbn; [reflexivity|].
  destruct (String.leb x y); [reflexivity|].
  rewrite IH. apply perm_swap.
Qed.

Lemma py_sorted_perm l : Permutation (py_sorted l) l.
Proof.
  induction l as [|x l IH]; cbn; [reflexivity|].
  rewrite insert_sorted_perm. now apply perm_skip.
Qed.

Lemma insert_sorted_ascending x l : ascending l -> ascending (insert_sorted x l).
Proof.
  unfold ascending. induction l as [|y l IH]; cbn; intros Hl.
  - repeat constructor.
  - apply StronglySorted_inv in Hl as [Hl Hy].
    destruct (String.leb x y) eqn:E.
    + constructor; [now constructor|].
      constructor; [exact E|].
      eapply Forall_impl; [|exact Hy]. intros z Hz. now apply str_le_trans with y.
    + constructor; [now apply IH|].
      eapply Permutation_Forall; [symmetry; apply insert_sorted_perm|].
      constructor; [|exact Hy].
      destruct (str_le_total x y) as [H|H]; [unfold str_le in H; congruence | exact H].
Qed.

Lemma py_sorted_ascending l : ascending (py_sorted l).
Proof.
  induction l as [|x l IH]; cbn; [constructor | now apply insert_sorted_ascending].
Qed.

Lemma ascending_unique : forall l l',
  Permutation l l' -> ascending l -> ascending l' -> l = l'.
Proof.
  induction l as [|x l IH]; intros l' Hperm Hl Hl'.
  - apply Permutation_nil in Hperm. now subst.
  - destruct l' as [|y l'].
    { symmetry in Hperm. now apply Permutation_nil in Hperm. }
    apply StronglySorted_inv in Hl as [Hl Hx].
    apply StronglySorted_inv in Hl' as [Hl' Hy].
    assert (x = y) as ->.
    { apply str_le_antisym.
      - assert (In y (x :: l)) as [->|Hin]
            by (eapply Permutation_in; [symmetry; exact Hperm | now left]).
        + apply str_le_refl.
        + rewrite Forall_forall in Hx. now apply Hx.
      - assert (In x (y :: l')) as [->|Hin]
            by (eapply Permutation_in; [exact Hperm | now left]).
        + apply str_le_refl.
        + rewrite Forall_forall in Hy. now apply Hy. }
    f_equal. apply IH; auto. now apply Permutation_cons_inv in Hperm.
Qed.

Lemma py_sorted_unique l l' :
  Permutation l l' -> ascending l' -> py_sorted l = l'.
Proof.
  intros Hperm Hl'. apply ascending_unique.
  - now rewrite py_sorted_perm.
  - apply py_sorted_ascending.
  - exact Hl'.
Qed.

Lemma ascending_app_max l x :
  ascending l -> Forall (fun y => str_le y x) l -> ascending (l ++ [x]).
Proof.
  unfold ascending. induction l as [|y l IH]; cbn; intros Hl Hmax.
  - repeat constructor.
  - apply StronglySorted_inv in Hl as [Hl Hy].
    apply Forall_cons_iff in Hmax as [Hyx Hmax].
    constructor; [now apply IH|].
    apply Forall_app. split; [exact Hy | now constructor].
Qed.

Lemma ascending_skipn n l : ascending l -> ascending (skipn n l).
Proof.
  unfold ascending. revert l. induction n as [|n IH]; intros l Hl; [exact Hl|].
  destruct l as [|x l]; [constructor|]. cbn.
  apply IH. now apply StronglySorted_inv in Hl.
Qed.

(** ** Keys of a dictionary under insertion and deletion *)

Section DictKeys.
Variable V : Type.
Implicit Types (d : PyDict.t V) (k x : string) (v : V).

Lemma in_keys_set d k v x :
  In x (PyDict.keys (PyDict.set k v d)) <-> In x (PyDict.keys d) \/ x = k.
Proof.
  unfold PyDict.keys. induction d as [|[k0 v0] d IH]; cbn.
  - intuition.
  - destruct (String.eqb_spec k k0) as [->|Hne]; cbn.
    + intuition.
    + rewrite IH. intuition.
Qed.

Lemma NoDup_keys_set d k v :
  NoDup (PyDict.keys d) -> NoDup (PyDict.keys (PyDict.set k v d)).
Proof.
  induction d as [|[k0 v0] d IH]; cbn; intros Hnd.
  - repeat constructor. intros [].
  - apply NoDup_cons_iff in Hnd as [Hnotin Hnd].
    destruct (String.eqb_spec k k0) as [->|Hne]; cbn.
    + now constructor.
    + constructor; [|now apply IH].
      fold (PyDict.keys (PyDict.set k v d)).
      rewrite in_keys_set. intros [Hin | ->]; [now apply Hnotin | now apply Hne].
Qed.

Lemma in_keys_del d k x :
  NoDup (PyDict.keys d) ->
  In x (PyDict.keys (PyDict.del k d)) <-> In x (PyDict.keys d) /\ x <> k.
Proof.
  unfold PyDict.keys. induction d as [|[k0 v0] d IH]; cbn; intros Hnd.
  - intuition.
  - apply NoDup_cons_iff in Hnd as [Hnotin Hnd].
    destruct (String.eqb_spec k k0) as [->|Hne]; cbn.
    + split.
      * intros Hin. split; [now right|]. intros ->. now apply Hnotin.
      * intros [[<- | Hin] Hx]; [now destruct Hx | exact Hin].
    + rewrite (IH Hnd). split.
      * intros [<- | [Hin Hx]]; [split; [now left | congruence] | now split; [right|]].
      * intros [[<- | Hin] Hx]; [now left | now right].
Qed.

Lemma NoDup_keys_del d k :
  NoDup (PyDict.keys d) -> NoDup (PyDict.keys (PyDict.del k d)).
Proof.
  induction d as [|[k0 v0] d IH]; cbn; intros Hnd; [constructor|].
  pose proof Hnd as Hnd0.
  apply NoDup_cons_iff in Hnd as [Hnotin Hnd].
  destruct (String.eqb_spec k k0) as [->|Hne]; cbn; [exact Hnd|].
  constructor; [|now apply IH].
  fold (PyDict.keys (PyDict.del k d)).
  rewrite (in_keys_del d k k0 Hnd). now intros [Hin _].
Qed.

End DictKeys.

Lemma NoDup_app_disjoint {A : Type} (l1 l2 : list A) (a : A) :
  NoDup (l1 ++ l2) -> In a l1 -> ~ In a l2.
Proof.
  induction l1 as [|x l1 IH]; cbn; [intros _ []|].
  intros Hnd [-> | Hin] Hin2.
  - apply NoDup_cons_iff in Hnd as [Hnot _]. apply Hnot, in_or_app. now right.
  - apply NoDup_cons_iff in Hnd as [_ Hnd]. now apply (IH Hnd Hin).
Qed.

(** ** One backup *)

Lemma all_but_last_5_last5 l : all_but_last_5 l ++ last5 l = l.
Proof. apply firstn_skipn. Qed.

Lemma length_last5 l : length (last5 l) = Nat.min (length l) 5.
Proof. unfold last5. rewrite length_skipn. lia. Qed.

Lemma last5_app_long a b : 5 <= length b -> last5 (a ++ b) = last5 b.
Proof.
  intros Hb. unfold last5. rewrite length_app, skipn_app.
  replace (length a + length b - 5 - length a) with (length b - 5) by lia.
  rewrite skipn_all2 by lia. reflexivity.
Qed.

Lemma last5_last5_app a b : last5 (last5 a ++ b) = last5 (a ++ b).
Proof.
  unfold last5 at 2.
  assert (Hsplit : skipn (length a - 5) a ++ b = skipn (length a - 5) (a ++ b)).
  { rewrite skipn_app. replace (length a - 5 - length a) with 0 by lia. reflexivity. }
  rewrite Hsplit. unfold last5. rewrite skipn_skipn, length_skipn, length_app.
  f_equal. lia.
Qed.

Lemma in_last5 l x : In x (last5 l) -> In x l.
Proof.
  intros Hin. rewrite <- (all_but_last_5_last5 l). apply in_or_app. now right.
Qed.

Lemma in_backup_names dir x :
  In x (backup_names dir)
  <-> In x (PyDict.keys dir) /\ PyStr.startswith backup_prefix x = true.
Proof. apply filter_In. Qed.

Lemma NoDup_backup_names dir :
  NoDup (PyDict.keys dir) -> NoDup (backup_names dir).
Proof. apply NoDup_filter. Qed.

Lemma fold_try_remove env olds : forall dir,
  removals_succeed env ->
  NoDup (PyDict.keys dir) ->
  NoDup (PyDict.keys (fold_left (try_remove env) olds dir)) /\
  forall x, In x (PyDict.keys (fold_left (try_remove env) olds dir))
            <-> In x (PyDict.keys dir) /\ ~ In x olds.
Proof.
  induction olds as [|o olds IH]; intros dir Hrm Hnd; cbn [fold_left].
  - split; [exact Hnd|]. intros x. cbn. tauto.
  - assert (Hstep : try_remove env dir o = PyDict.del o dir)
      by (unfold try_remove; now rewrite Hrm).
    rewrite Hstep.
    destruct (IH (PyDict.del o dir) Hrm (NoDup_keys_del _ dir o Hnd)) as [Hnd' Hin'].
    split; [exact Hnd'|]. intros x. rewrite Hin', (in_keys_del _ dir o x Hnd).
    cbn. split.
    + intros [[Hin Hne] Hnot]. split; [exact Hin|].
      intros [Heq|H]; [now apply Hne | now apply Hnot].
    + intros [Hin Hnot]. split; [split|].
      * exact Hin.
      * intros ->. apply Hnot. now left.
      * intros H. apply Hnot. now right.
Qed.

(** after a backup whose removals succeed, the backups kept are the five
    greatest names among the old ones and the new one *)
Lemma backup_keeps_last5 env fs content :
  signatories_file fs = Some content ->
  copy_ok env = true ->
  removals_succeed env ->
  NoDup (PyDict.keys (backups_dir fs)) ->
  exists fs',
    backup_signatories_file env fs = Some fs' /\
    signatories_file fs' = Some content /\
    other_files fs' = other_files fs /\
    NoDup (PyDict.keys (backups_dir fs')) /\
    py_sorted (backup_names (backups_dir fs'))
    = last5 (py_sorted (backup_names
                          (PyDict.set (backup_name (now env)) content (backups_dir fs)))).
Proof.
  intros Hfile Hcopy Hrm Hnd. unfold backup_signatories_file.
  rewrite Hfile, Hcopy. eexists. split; [reflexivity|].
  cbn [signatories_file backups_dir other_files].
  set (dir1 := PyDict.set (backup_name (now env)) content (backups_dir fs)).
  set (sorted := py_sorted (backup_names dir1)).
  assert (Hnd1 : NoDup (PyDict.keys dir1)) by now apply NoDup_keys_set.
  destruct (fold_try_remove env (all_but_last_5 sorted) dir1 Hrm Hnd1) as [Hnd2 Hin2].
  repeat split; auto.
  assert (Hnds : NoDup sorted).
  { eapply Permutation_NoDup; [symmetry; apply py_sorted_perm|].
    now apply NoDup_backup_names. }
  apply py_sorted_unique.
  - apply NoDup_Permutation.
    + now apply NoDup_backup_names.
    + rewrite <- (all_but_last_5_last5 sorted) in Hnds.
      now apply NoDup_app_remove_l in Hnds.
    + intros x. rewrite in_backup_names, Hin2.
      assert (Hsorted : In x sorted <-> In x (backup_names dir1)).
      { split; apply Permutation_in;
          [apply py_sorted_perm | symmetry; apply py_sorted_perm]. }
      rewrite in_backup_names in Hsorted.
      split.
      * intros [[Hin Hnot] Hpre].
        assert (In x sorted) as Hx by (apply Hsorted; now split).
        rewrite <- (all_but_last_5_last5 sorted) in Hx.
        apply in_app_or in Hx as [Hx | Hx]; [now destruct (Hnot Hx) | exact Hx].
      * intros Hx.
        assert (In x sorted) as Hxs by now apply in_last5.
        apply Hsorted in Hxs as [Hin Hpre].
        repeat split; auto. intros Hold.
        rewrite <- (all_but_last_5_last5 sorted) in Hnds.
        now apply (NoDup_app_disjoint _ _ x Hnds Hold).
  - apply ascending_skipn, py_sorted_ascending.
Qed.

(** ** Successive mutations of the registry *)

Lemma prefix_nil s : String.prefix "" s = true.
Proof. destruct s; reflexivity. Qed.

Lemma startswith_backup_name ts :
  PyStr.startswith backup_prefix (backup_name ts) = true.
Proof. unfold PyStr.startswith, backup_name. cbn. apply prefix_nil. Qed.

Lemma ascii_compare_refl c : Ascii.compare c c = Eq.
Proof. now apply OrderedTypeEx.Ascii_as_OT.cmp_eq. Qed.

Lemma compare_append_l (p a b : string) :
  String.compare (p ++ a) (p ++ b) = String.compare a b.
Proof.
  induction p as [|c p IH]; cbn; [reflexivity|].
  now rewrite ascii_compare_refl.
Qed.

Lemma compare_refl (s : string) : String.compare s s = Eq.
Proof. now apply OrderedTypeEx.String_as_OT.cmp_eq. Qed.

Lemma compare_append_r (s : string) : forall a b : string,
  String.length a = String.length b ->
  String.compare (a ++ s) (b ++ s) = String.compare a b.
Proof.
  induction a as [|x a IH]; intros [|y b] Hlen; cbn in *; try discriminate.
  - apply compare_refl.
  - destruct (Ascii.compare x y); auto.
Qed.

(** timestamps of one format (equal lengths) order their backup names *)
Lemma backup_name_increasing (t1 t2 : string) :
  String.length t1 = String.length t2 ->
  str_lt t1 t2 -> str_lt (backup_name t1) (backup_name t2).
Proof.
  intros Hlen. unfold str_lt, String.ltb, backup_name.
  now rewrite compare_append_l, compare_append_r.
Qed.

Lemma sorted_names_with_new_maximum dir new content :
  NoDup (PyDict.keys dir) ->
  PyStr.startswith backup_prefix new = true ->
  (forall y, In y (backup_names dir) -> str_lt y new) ->
  py_sorted (backup_names (PyDict.set new content dir))
  = py_sorted (backup_names dir) ++ [new].
Proof.
  intros Hnd Hpre Hmax.
  assert (Hfresh : ~ In new (PyDict.keys dir)).
  { intros Hin. apply (str_lt_irrefl new), Hmax, in_backup_names. now split. }
  rewrite set_fresh by exact Hfresh.
  unfold backup_names. rewrite keys_app, filter_app.
  cbn [PyDict.keys map fst filter]. rewrite Hpre.
  apply py_sorted_unique.
  - apply Permutation_app_tail. symmetry. apply py_sorted_perm.
  - apply ascending_app_max; [apply py_sorted_ascending|].
    apply Forall_forall. intros y Hy. apply str_lt_le, Hmax.
    eapply Permutation_in; [apply py_sorted_perm | exact Hy].
Qed.

Lemma save_backups env fs sigs imgs :
  fault_free env ->
  NoDup (PyDict.keys (backups_dir fs)) ->
  let fs' := snd (fst (save_signatories env fs sigs imgs)) in
  signatories_file fs' <> None /\
  NoDup (PyDict.keys (backups_dir fs')) /\
  match signatories_file fs with
  | None => backups_dir fs' = backups_dir fs
  | Some content =>
      py_sorted (backup_names (backups_dir fs'))
      = last5 (py_sorted (backup_names
                            (PyDict.set (backup_name (now env)) content (backups_dir fs))))
  end.
Proof.
  intros (Hcopy & Hrm & Hwrite) Hnd. unfold save_signatories.
  destruct (signatories_file fs) as [content|] eqn:Hfile.
  - destruct (backup_keeps_last5 env fs content Hfile Hcopy Hrm Hnd)
      as (fs1 & -> & _ & _ & Hnd1 & Hsorted).
    rewrite Hwrite. cbn. repeat split; auto. discriminate.
  - unfold backup_signatories_file. rewrite Hfile, Hwrite. cbn.
    repeat split; auto. discriminate.
Qed.

Lemma mutations_keep_last5 : forall rest first fs,
  signatories_file fs <> None ->
  NoDup (PyDict.keys (backups_dir fs)) ->
  Forall (fun m => fault_free (fst (fst m))) (first :: rest) ->
  StronglySorted str_lt (map stamp (first :: rest)) ->
  (forall y n, In y (backup_names (backups_dir fs)) ->
               In n (map stamp (first :: rest)) -> str_lt y n) ->
  py_sorted (backup_names (backups_dir (mutations fs (first :: rest))))
  = last5 (py_sorted (backup_names (backups_dir fs)) ++ map stamp (first :: rest)).
Proof.
  induction rest as [|second rest IH]; intros [[env sigs] imgs] fs Hfile Hnd Hff Hasc Hold.
  - cbn [mutations map].
    destruct (save_backups env fs sigs imgs) as (_ & _ & Hstep); auto.
    { now apply Forall_inv in Hff. }
    destruct (signatories_file fs) as [content|]; [|congruence].
    rewrite Hstep. f_equal. apply sorted_names_with_new_maximum; auto.
    + apply startswith_backup_name.
    + intros y Hy. apply (Hold y); [exact Hy | now left].
  - change (mutations fs ((env, sigs, imgs) :: second :: rest))
      with (mutations (snd (fst (save_signatories env fs sigs imgs))) (second :: rest)).
    destruct (save_backups env fs sigs imgs) as (Hfile1 & Hnd1 & Hstep); auto.
    { now apply Forall_inv in Hff. }
    destruct (signatories_file fs) as [content|]; [|congruence].
    rewrite sorted_names_with_new_maximum in Hstep; auto;
      [| apply startswith_backup_name
       | intros y Hy; apply (Hold y); [exact Hy | now left] ].
    apply StronglySorted_inv in Hasc as [Hasc Hfirst].
    rewrite IH; auto.
    + rewrite Hstep, last5_last5_app, <- app_assoc. reflexivity.
    + now apply Forall_inv_tail in Hff.
    + intros y n Hy Hn.
      assert (In y (last5 (py_sorted (backup_names (backups_dir fs))
                           ++ [backup_name (now env)]))) as Hy'.
      { rewrite <- Hstep. eapply Permutation_in; [symmetry; apply py_sorted_perm | exact Hy]. }
      apply in_last5, in_app_or in Hy' as [Hy' | [<- | []]].
      * apply (Hold y); [|now right].
        eapply Permutation_in; [apply py_sorted_perm | exact Hy'].
      * rewrite Forall_forall in Hfirst. now apply Hfirst.
Qed.

(** C6 (as amended).  Take successive mutations during which nothing
    fails and whose backup names (the timestamp has a resolution of one
    second) are strictly increasing and greater than every backup name
    already in the directory.  As soon as one of them has made a backup,
    the backups in the directory are the five greatest names among the
    old ones and the new ones, hence at most 5; and after more than 5
    mutations they are exactly 5, those of the last five mutations. *)
Theorem C6_backups_keep_five_most_recent (fs : filesystem) (steps : list mutation) :
  NoDup (PyDict.keys (backups_dir fs)) ->
  Forall (fun m => fault_free (fst (fst m))) steps ->
  StronglySorted str_lt (map stamp steps) ->
  (forall y n, In y (backup_names (backups_dir fs)) ->
               In n (map stamp steps) -> str_lt y n) ->
  backed_up fs steps <> [] ->
  let final := backup_names (backups_dir (mutations fs steps)) in
  py_sorted final
  = last5 (py_sorted (backup_names (backups_dir fs)) ++ map stamp (backed_up fs steps)) /\
  length final <= 5 /\
  (5 < length steps ->
   length final = 5 /\ py_sorted final = last5 (map stamp steps)).
Proof.
  intros Hnd Hff Hasc Hold Hsome final.
  assert (Hmain : py_sorted final
                  = last5 (py_sorted (backup_names (backups_dir fs))
                           ++ map stamp (backed_up fs steps))).
  { subst final. unfold backed_up in *.
    destruct (signatories_file fs) as [content|] eqn:Hfile.
    - destruct steps as [|first rest]; [congruence|].
      apply mutations_keep_last5; auto. congruence.
    - destruct steps as [|[[env sigs] imgs] [|second rest]]; cbn in Hsome; try congruence.
      change (mutations fs ((env, sigs, imgs) :: second :: rest))
        with (mutations (snd (fst (save_signatories env fs sigs imgs))) (second :: rest)).
      destruct (save_backups env fs sigs imgs) as (Hfile1 & Hnd1 & Hstep); auto.
      { now apply Forall_inv in Hff. }
      rewrite Hfile in Hstep. cbn [tl].
      rewrite mutations_keep_last5; auto.
      + now rewrite Hstep.
      + now apply Forall_inv_tail in Hff.
      + now apply StronglySorted_inv in Hasc.
      + rewrite Hstep. intros y n Hy Hn. apply (Hold y); [exact Hy | now right]. }
  assert (Hlen : length final = length (py_sorted final))
    by (apply Permutation_length; symmetry; apply py_sorted_perm).
  split; [exact Hmain|]. split.
  - rewrite Hlen, Hmain, length_last5. lia.
  - intros Hlong.
    assert (Hlast : py_sorted final = last5 (map stamp steps)).
    { rewrite Hmain. unfold backed_up.
      destruct (signatories_file fs).
      - apply last5_app_long. rewrite length_map. lia.
      - destruct steps as [|first rest]; [cbn in Hlong; lia|].
        cbn [tl]. cbn in Hlong.
        rewrite last5_app_long by (rewrite length_map; lia).
        symmetry. apply (last5_app_long [stamp first]). rewrite length_map. lia. }
    split; [|exact Hlast].
    rewrite Hlen, Hlast, length_last5, length_map. lia.
Qed.

Lemma C6_six_mutations_witness :
  let final := backup_names (backups_dir (mutations Ex.empty_fs ExBackups.six_seconds)) in
  py_sorted final
  = last5 (py_sorted (backup_names (backups_dir Ex.empty_fs))
           ++ map stamp (backed_up Ex.empty_fs ExBackups.six_seconds)) /\
  length final <= 5 /\
  (5 < length ExBackups.six_seconds ->
   length final = 5 /\ py_sorted final = last5 (map stamp ExBackups.six_seconds)).
Proof.
  apply (C6_backups_keep_five_most_recent Ex.empty_fs ExBackups.six_seconds).
  - constructor.
  - repeat constructor; intros f; reflexivity.
  - repeat constructor; reflexivity.
  - intros y n [].
  - discriminate.
Defined.

(** C6 as stated fails: of six successive mutations of a registry that
    does not exist yet, the first finds no file to copy, and the second
    and the third, which fall within the same second, write the same
    backup file; four backups remain after the six mutations, not five. *)
Lemma C6_same_second_shares_a_backup :
  length ExBackups.double_click = 6 /\
  Forall (fun m => fault_free (fst (fst m))) ExBackups.double_click /\
  backup_names (backups_dir (mutations Ex.empty_fs ExBackups.double_click))
  = map backup_name ["20240101_120001"; "20240101_120002";
                     "20240101_120003"; "20240101_120004"] /\
  length (backup_names (backups_dir (mutations Ex.empty_fs ExBackups.double_click))) <> 5.
Proof.
  split; [reflexivity|]. split.
  - repeat constructor; intros f; reflexivity.
  - vm_compute. split; [reflexivity | discriminate].
Qed.

(** ** The durable write *)

Lemma get_del_other {V : Type} (d : PyDict.t V) (k k' : string) :
  k <> k' -> PyDict.get k (PyDict.del k' d) = PyDict.get k d.
Proof.
  intros Hne. induction d as [|[k0 v0] d IH]; cbn; [reflexivity|].
  destruct (String.eqb_spec k' k0) as [->|Hne0]; cbn.
  - apply String.eqb_neq in Hne. now rewrite Hne.
  - now rewrite IH.
Qed.

Lemma get_fold_try_remove env olds k : forall dir,
  ~ In k olds ->
  PyDict.get k (fold_left (try_remove env) olds dir) = PyDict.get k dir.
Proof.
  induction olds as [|o olds IH]; intros dir Hnot; cbn [fold_left]; [reflexivity|].
  rewrite IH by (intros H; apply Hnot; now right).
  unfold try_remove. destruct (remove_ok env o); [|reflexivity].
  apply get_del_other. intros ->. apply Hnot. now left.
Qed.

Lemma newest_not_evicted (older : list string) (new : string) :
  ~ In new older -> ~ In new (all_but_last_5 (older ++ [new])).
Proof.
  intros Hnot Hin. unfold all_but_last_5 in Hin.
  rewrite length_app, firstn_app in Hin. cbn [length] in Hin.
  replace (length older + 1 - 5 - length older) with 0 in Hin by lia.
  cbn [firstn] in Hin. rewrite app_nil_r in Hin.
  apply Hnot. rewrite <- (firstn_skipn (length older + 1 - 5) older).
  apply in_or_app. now left.
Qed.

(** the backup made by a copy that succeeds holds the prior content under
    the new name, when that name is the greatest in the directory *)
Lemma backup_holds_prior_content env fs content :
  signatories_file fs = Some content ->
  copy_ok env = true ->
  NoDup (PyDict.keys (backups_dir fs)) ->
  (forall y, In y (backup_names (backups_dir fs)) -> str_lt y (backup_name (now env))) ->
  exists fs1,
    backup_signatories_file env fs = Some fs1 /\
    signatories_file fs1 = Some content /\
    PyDict.get (backup_name (now env)) (backups_dir fs1) = Some content.
Proof.
  intros Hfile Hcopy Hnd Hmax. unfold backup_signatories_file.
  rewrite Hfile, Hcopy. eexists. split; [reflexivity|].
  cbn [signatories_file backups_dir]. split; [reflexivity|].
  rewrite get_fold_try_remove; [apply get_set_same|].
  rewrite sorted_names_with_new_maximum; auto using startswith_backup_name.
  apply newest_not_evicted. intros Hin.
  apply (str_lt_irrefl (backup_name (now env))), Hmax.
  eapply Permutation_in; [apply py_sorted_perm | exact Hin].
Qed.







(** the backup just made is evicted at once when five backup names sort
    after it (a clock set back, or backups copied in from elsewhere): the
    save succeeds and no backup holds the prior content *)
Example late_backups_evict_the_new_one :
  let fs' := snd (fst (save_signatories (Ex.quiet "20240101_120000")
                         ExBackups.later_backups Ex.roster [])) in
  PyDict.get (backup_name "20240101_120000") (backups_dir fs') = None /\
  length (backups_dir fs') = 5 /\
  signatories_file fs'
  = Some (Whole [("Alice", {| max_amount := 1000; signature_image_path := None |});
                 ("Bob", {| max_amount := 500; signature_image_path := None |})]).
Proof. vm_compute. repeat split. Qed.


(** * Further properties of the program *)

(** ** Substrings *)

Lemma prefix_iff (p : string) : forall s,
  String.prefix p s = true <-> exists post, s = (p ++ post)%string.
Proof.
  induction p as [|a p IH]; intros s; cbn.
  - destruct s; split; eauto.
  - destruct s as [|b s]; cbn.
    + split; [discriminate | intros [post H]; discriminate].
    + destruct (ascii_dec a b) as [->|Hne].
      * rewrite IH. split; intros [post H]; exists post; congruence.
      * split; [discriminate|]. intros [post H]. congruence.
Qed.

Lemma contains_unfold (needle hay : string) :
  PyStr.contains needle hay
  = if String.prefix needle hay then true
    else match hay with
         | EmptyString => false
         | String _ rest => PyStr.contains needle rest
         end.
Proof. destruct hay; reflexivity. Qed.

(** [needle in hay] holds exactly when [hay] is some text, [needle], some
    text *)
Lemma contains_iff (needle : string) : forall hay,
  PyStr.contains needle hay = true
  <-> exists pre post, hay = (pre ++ needle ++ post)%string.
Proof.
  induction hay as [|c hay IH]; rewrite contains_unfold.
  - destruct (String.prefix needle "") eqn:E.
    + split; [|reflexivity]. intros _. apply prefix_iff in E as [post E].
      exists "", post. exact E.
    + split; [discriminate|]. intros (pre & post & H).
      destruct pre; cbn in H; [|discriminate].
      assert (String.prefix needle "" = true) by (apply prefix_iff; eauto).
      congruence.
  - destruct (String.prefix needle (String c hay)) eqn:E.
    + split; [|reflexivity]. intros _. apply prefix_iff in E as [post E].
      exists "", post. exact E.
    + rewrite IH. split.
      * intros (pre & post & ->). exists (String c pre), post. reflexivity.
      * intros (pre & post & H). destruct pre as [|c' pre]; cbn in H.
        -- assert (String.prefix needle (String c hay) = true)
             by (apply prefix_iff; eauto).
           congruence.
        -- injection H as _ ->. eauto.
Qed.

Lemma contains_trans (a b c : string) :
  PyStr.contains a b = true -> PyStr.contains b c = true ->
  PyStr.contains a c = true.
Proof.
  rewrite !contains_iff. intros (p1 & q1 & ->) (p2 & q2 & ->).
  exists (p2 ++ p1)%string, (q1 ++ q2)%string.
  now rewrite !append_assoc.
Qed.

Lemma contains_append_l (needle pre s : string) :
  PyStr.contains needle s = true -> PyStr.contains needle (pre ++ s) = true.
Proof.
  rewrite !contains_iff. intros (p & q & ->).
  exists (pre ++ p)%string, q. now rewrite append_assoc.
Qed.

Lemma contains_append_r (needle s post : string) :
  PyStr.contains needle s = true -> PyStr.contains needle (s ++ post) = true.
Proof.
  rewrite !contains_iff. intros (p & q & ->).
  exists p, (q ++ post)%string. now rewrite !append_assoc.
Qed.

(** ** The two classifiers on the same reply *)

(** X1.  The dialog never shows a reply as valid when it carries the
    [STATUS:] marker of invalid or of unclear: when [call_claude_api]
    classifies a reply as [invalid] the dialog shows the label of
    invalid, and a reply with the marker of unclear is shown as invalid
    or unclear. *)
Theorem X1_marked_reply_never_shown_valid (result_text : string) :
  (parse_status result_text = invalid ->
   display_status result_text = label_of invalid) /\
  (PyStr.contains marker_invalid result_text = true ->
   display_status result_text = label_of invalid) /\
  (PyStr.contains marker_unclear result_text = true ->
   display_status result_text = label_of invalid \/
   display_status result_text = label_of unclear).
Proof.
  assert (Hinv : PyStr.contains marker_invalid result_text = true ->
                 display_status result_text = label_of invalid).
  { intros H. unfold display_status.
    rewrite (contains_trans "לא תקין" marker_invalid result_text); auto. }
  split; [|split; [exact Hinv|]].
  - intros H. apply Hinv. rewrite parse_status_cascade in H.
    destruct (PyStr.contains marker_valid result_text); [discriminate|].
    destruct (PyStr.contains marker_invalid result_text); [reflexivity | discriminate].
  - intros H. unfold display_status.
    destruct (PyStr.contains "לא תקין" result_text); [now left|].
    rewrite (contains_trans "לא ברור" marker_unclear result_text); auto.
Qed.

Lemma X1_marked_reply_witness :
  display_status Ex.bob_reply = label_of invalid /\
  display_status Ex.two_marker_reply = label_of invalid.
Proof.
  split.
  - apply (proj1 (X1_marked_reply_never_shown_valid Ex.bob_reply)).
    vm_compute. reflexivity.
  - apply (proj1 (proj2 (X1_marked_reply_never_shown_valid Ex.two_marker_reply))).
    vm_compute. reflexivity.
Defined.

(** ** The text of a reply *)

Lemma result_text_of_from (content : list resp_item) : forall init,
  fold_left (fun acc item =>
               match item with
               | TextItem t => (acc ++ t)%string
               | OtherItem _ => acc
               end) content init
  = (init ++ result_text_of content)%string.
Proof.
  unfold result_text_of.
  induction content as [|item content IH]; intros init; cbn [fold_left].
  - now rewrite append_nil_r.
  - rewrite IH. rewrite (IH (match item with
                             | TextItem t => ("" ++ t)%string
                             | OtherItem _ => ""
                             end)).
    destruct item; cbn; [now rewrite append_assoc | reflexivity].
Qed.

Lemma result_text_of_app (a b : list resp_item) :
  result_text_of (a ++ b) = (result_text_of a ++ result_text_of b)%string.
Proof.
  unfold result_text_of at 1. rewrite fold_left_app.
  fold (result_text_of a). apply result_text_of_from.
Qed.

Lemma result_text_of_text (t : string) (b : list resp_item) :
  result_text_of (TextItem t :: b) = (t ++ result_text_of b)%string.
Proof. unfold result_text_of at 1. cbn [fold_left]. apply result_text_of_from. Qed.

(** X2.  The text that is classified is the concatenation, in order, of
    the text items of the reply; items of another type contribute
    nothing, wherever they stand. *)
Theorem X2_result_text_concatenates (a b : list resp_item) (t ty : string) :
  result_text_of (a ++ b) = (result_text_of a ++ result_text_of b)%string /\
  result_text_of (TextItem t :: b) = (t ++ result_text_of b)%string /\
  result_text_of (OtherItem ty :: b) = result_text_of b /\
  result_text_of (a ++ OtherItem ty :: b) = result_text_of (a ++ b).
Proof.
  split; [apply result_text_of_app|].
  split; [apply result_text_of_text|].
  assert (Hother : result_text_of (OtherItem ty :: b) = result_text_of b) by reflexivity.
  split; [exact Hother|].
  now rewrite !result_text_of_app, Hother.
Qed.

(** X3.  A marker is found in whichever text item of the reply it
    stands: when any text item holds the marker of valid the verdict of
    [call_claude_api] is [valid], and when any text item holds the
    marker of invalid the verdict is not [unclear]. *)
Theorem X3_marker_in_any_text_item
        (content : list resp_item) (t : string) :
  In (TextItem t) content ->
  (PyStr.contains marker_valid t = true ->
   parse_status (result_text_of content) = valid) /\
  (PyStr.contains marker_invalid t = true ->
   parse_status (result_text_of content) <> unclear).
Proof.
  intros Hin. apply in_split in Hin as (l1 & l2 & ->).
  assert (Hfound : forall m, PyStr.contains m t = true ->
                   PyStr.contains m (result_text_of (l1 ++ TextItem t :: l2)) = true).
  { intros m Hm. rewrite result_text_of_app, result_text_of_text.
    now apply contains_append_l, contains_append_r. }
  split; intros Hm; apply Hfound in Hm; rewrite parse_status_cascade.
  - now rewrite Hm.
  - rewrite Hm. destruct (PyStr.contains marker_valid _); discriminate.
Qed.

Lemma X3_marker_witness :
  parse_status (result_text_of [TextItem "סיכום. "; OtherItem "tool_use";
                                TextItem "STATUS: תקין"]) = valid.
Proof.
  apply (proj1 (X3_marker_in_any_text_item
                  [TextItem "סיכום. "; OtherItem "tool_use"; TextItem "STATUS: תקין"]
                  "STATUS: תקין"
                  (or_intror (or_intror (or_introl eq_refl))))).
  vm_compute. reflexivity.
Defined.

(** ** Failures of the verification *)

(** X4.  When the invoice image does not encode, the request is not
    composed and the service is not consulted: [call_claude_api] returns
    the same error answer whatever the service would reply, and the
    verification ends with status [error], the progress flag cleared and
    an error text stored. *)
Theorem X4_invoice_encoding_failure_stops_the_call
        (jpeg : image -> option string) (invoice_image : image)
        (sigs : PyDict.t Z) (imgs : PyDict.t (option image)) (s : session_state) :
  encode_image jpeg invoice_image = None ->
  exists text,
    (forall http, call_claude_api jpeg http invoice_image sigs imgs
                  = ErrorResponse text None) /\
    forall http,
      let s' := run_verification jpeg http invoice_image s in
      ss_status_code s' = error /\
      verification_in_progress s' = false /\
      exists shown, verification_result s' = Some shown /\
                    PyStr.contains text shown = true.
Proof.
  intros Hinvoice.
  assert (Hcall : forall http sigs imgs,
             call_claude_api jpeg http invoice_image sigs imgs
             = ErrorResponse "שגיאה בקידוד תמונת החשבונית" None).
  { intros. unfold call_claude_api, content_items. now rewrite Hinvoice. }
  eexists. split; [intros; apply Hcall|].
  intros http s'. subst s'. unfold run_verification. rewrite Hcall.
  cbn [ss_status_code verification_in_progress verification_result].
  repeat split. eexists. split; [reflexivity|].
  apply contains_append_l, contains_append_r.
  apply contains_iff. exists "", "". now rewrite append_nil_r.
Qed.

Lemma X4_encoding_failure_witness :
  exists text,
    (forall http, call_claude_api Ex.jpeg http (Ex.palette 0) Ex.roster []
                  = ErrorResponse text None) /\
    forall http,
      let s' := run_verification Ex.jpeg http (Ex.palette 0) Ex.busy in
      ss_status_code s' = error /\
      verification_in_progress s' = false /\
      exists shown, verification_result s' = Some shown /\
                    PyStr.contains text shown = true.
Proof.
  apply (X4_invoice_encoding_failure_stops_the_call
           Ex.jpeg (Ex.palette 0) Ex.roster [] Ex.busy).
  reflexivity.
Defined.

Lemma content_items_cases jpeg invoice_image sigs imgs :
  (encode_image jpeg invoice_image = None /\
   exists text, content_items jpeg invoice_image sigs imgs = inl text) \/
  (exists b64 items printed,
      encode_image jpeg invoice_image = Some b64 /\
      content_items jpeg invoice_image sigs imgs = inr (items, printed)).
Proof.
  unfold content_items.
  destruct (encode_image jpeg invoice_image) as [b64|].
  - right. destruct (fold_left _ _ _) as [items printed]. eauto 6.
  - left. eauto.
Qed.





(** ** Names of the signature files *)

Lemma has_char_cons c x s :
  has_char c (String x s) = Ascii.eqb c x || has_char c s.
Proof. reflexivity. Qed.

Lemma replace_char_removes (old new : ascii) (s : string) :
  old <> new -> has_char old (PyStr.replace_char old new s) = false.
Proof.
  intros Hne. induction s as [|x s IH]; [reflexivity|].
  cbn [PyStr.replace_char]. rewrite has_char_cons, IH, orb_false_r.
  destruct (Ascii.eqb_spec x old) as [->|Hx].
  - now apply Ascii.eqb_neq.
  - apply Ascii.eqb_neq. congruence.
Qed.

Lemma replace_char_keeps_absent (c old new : ascii) (s : string) :
  c <> new -> has_char c s = false ->
  has_char c (PyStr.replace_char old new s) = false.
Proof.
  intros Hne. induction s as [|x s IH]; [reflexivity|].
  cbn [PyStr.replace_char]. rewrite !has_char_cons.
  intros H. apply orb_false_iff in H as [Hx Hs].
  rewrite (IH Hs), orb_false_r.
  destruct (Ascii.eqb x old); [now apply Ascii.eqb_neq | exact Hx].
Qed.

Lemma replace_char_length (old new : ascii) (s : string) :
  String.length (PyStr.replace_char old new s) = String.length s.
Proof. induction s as [|x s IH]; cbn; congruence. Qed.

Lemma replace_char_absent (old new : ascii) (s : string) :
  has_char old s = false -> PyStr.replace_char old new s = s.
Proof.
  induction s as [|x s IH]; [reflexivity|].
  rewrite has_char_cons. intros H. apply orb_false_iff in H as [Hx Hs].
  cbn [PyStr.replace_char]. rewrite (IH Hs), Ascii.eqb_sym, Hx. reflexivity.
Qed.

Lemma replace_char_changes (old new : ascii) (s : string) :
  old <> new -> has_char old s = true -> PyStr.replace_char old new s <> s.
Proof.
  intros Hne Hin Heq.
  pose proof (replace_char_removes old new s Hne) as Hgone.
  rewrite Heq in Hgone. congruence.
Qed.

Lemma file_stem_clean (name : string) :
  has_char "/" (file_stem name) = false /\ has_char " " (file_stem name) = false.
Proof.
  unfold file_stem. split.
  - apply replace_char_removes. discriminate.
  - apply replace_char_keeps_absent; [discriminate|].
    apply replace_char_removes. discriminate.
Qed.

Lemma file_stem_idempotent (name : string) : file_stem (file_stem name) = file_stem name.
Proof.
  destruct (file_stem_clean name) as [Hslash Hspace].
  unfold file_stem at 1.
  rewrite (replace_char_absent " " "_" _ Hspace).
  now apply replace_char_absent.
Qed.

(** X7.  The file name of a reference signature is "signatures/", a stem
    as long as the name of the signatory in which every space and every
    slash is replaced by "_", then "_signature." and the extension: the
    stem holds no slash, so the file lies directly in the signatures
    directory whatever the name. *)
Theorem X7_signature_file_name_is_sanitised (name ext : string) :
  exists stem,
    signature_filename name ext
    = ("signatures/" ++ stem ++ "_signature." ++ ext)%string /\
    String.length stem = String.length name /\
    has_char "/" stem = false /\
    has_char " " stem = false /\
    (has_char "/" name = false -> has_char " " name = false -> stem = name).
Proof.
  exists (file_stem name).
  destruct (file_stem_clean name) as [Hslash Hspace].
  split; [reflexivity|]. split.
  - unfold file_stem. now rewrite !replace_char_length.
  - repeat split; auto. intros H1 H2. unfold file_stem.
    rewrite (replace_char_absent " " "_" name H2).
    now apply replace_char_absent.
Qed.

(** X8.  The file name does not tell names apart that differ in spaces,
    slashes and underscores: a name and the name obtained from it by
    replacing spaces and slashes by "_" get the same file, and the two
    names differ as soon as the first holds a space or a slash. *)
Theorem X8_signature_file_name_collides (name ext : string) :
  signature_filename (file_stem name) ext = signature_filename name ext /\
  (has_char " " name = true \/ has_char "/" name = true -> file_stem name <> name).
Proof.
  split.
  - unfold signature_filename. fold (file_stem (file_stem name)) (file_stem name).
    now rewrite file_stem_idempotent.
  - destruct (file_stem_clean name) as [Hslash Hspace].
    intros [H | H] Heq; rewrite Heq in *; congruence.
Qed.

Lemma X8_collision_witness :
  file_stem "Dana Levi" <> "Dana Levi" /\
  signature_filename "Dana_Levi" "jpg" = signature_filename "Dana Levi" "jpg".
Proof.
  split.
  - apply (proj2 (X8_signature_file_name_collides "Dana Levi" "jpg")).
    left. reflexivity.
  - apply (proj1 (X8_signature_file_name_collides "Dana Levi" "jpg")).
Defined.

Lemma X7_sanitised_witness :
  exists stem,
    signature_filename "Bob" "jpg"
    = ("signatures/" ++ stem ++ "_signature." ++ "jpg")%string /\
    String.length stem = String.length "Bob" /\
    has_char "/" stem = false /\
    has_char " " stem = false /\
    (has_char "/" "Bob" = false -> has_char " " "Bob" = false -> stem = "Bob").
Proof. apply (X7_signature_file_name_is_sanitised "Bob" "jpg"). Defined.

(** ** What a save leaves alone *)

Lemma startswith_signature_filename (name ext : string) :
  PyStr.startswith "signatures/" (signature_filename name ext) = true.
Proof. unfold PyStr.startswith, signature_filename. cbn. apply prefix_nil. Qed.

Lemma save_entry_files_other env imgs acc item p :
  PyStr.startswith "signatures/" p = false ->
  PyDict.get p (sv_files (save_entry env imgs acc item)) = PyDict.get p (sv_files acc).
Proof.
  intros Hp. destruct item as [name amount]. unfold save_entry.
  assert (Hne : forall ext, p <> signature_filename name ext).
  { intros ext ->. rewrite startswith_signature_filename in Hp. discriminate. }
  cbv zeta.
  destruct (PyDict.get name imgs) as [[img|]|]; cbn [sv_files]; try reflexivity.
  destruct (image_save_ok env img _); cbn [sv_files];
    [| destruct (image_save_ok env _ _); cbn [sv_files] ];
    try reflexivity; apply get_set_other, Hne.
Qed.

Lemma save_fold_files_other env imgs p sigs : forall acc,
  PyStr.startswith "signatures/" p = false ->
  PyDict.get p (sv_files (fold_left (save_entry env imgs) sigs acc))
  = PyDict.get p (sv_files acc).
Proof.
  induction sigs as [|item sigs IH]; intros acc Hp; cbn [fold_left]; [reflexivity|].
  rewrite IH by exact Hp. now apply save_entry_files_other.
Qed.

Lemma save_entry_files_grow env imgs acc item p :
  In p (PyDict.keys (sv_files acc)) ->
  In p (PyDict.keys (sv_files (save_entry env imgs acc item))).
Proof.
  intros Hin. destruct item as [name amount]. unfold save_entry.
  cbv zeta.
  destruct (PyDict.get name imgs) as [[img|]|]; cbn [sv_files]; try exact Hin.
  destruct (image_save_ok env img _); cbn [sv_files];
    [| destruct (image_save_ok env _ _); cbn [sv_files] ];
    try exact Hin; apply in_keys_set; now left.
Qed.

Lemma save_fold_files_grow env imgs p sigs : forall acc,
  In p (PyDict.keys (sv_files acc)) ->
  In p (PyDict.keys (sv_files (fold_left (save_entry env imgs) sigs acc))).
Proof.
  induction sigs as [|item sigs IH]; intros acc Hin; cbn [fold_left]; [exact Hin|].
  apply IH. now apply save_entry_files_grow.
Qed.

Lemma backup_other_files env fs fs1 :
  backup_signatories_file env fs = Some fs1 ->
  other_files fs1 = other_files fs /\ signatories_file fs1 = signatories_file fs.
Proof.
  unfold backup_signatories_file.
  destruct (signatories_file fs) as [content|] eqn:Hfile;
    [destruct (copy_ok env)|]; intros [= <-]; cbn; now rewrite ?Hfile.
Qed.

(** X9.  A save, successful or not, changes no file outside the
    signatures directory apart from the registry file and the backups:
    every other path keeps its content. *)
Theorem X9_save_writes_only_signature_files
        (env : io) (fs : filesystem) (sigs : PyDict.t Z)
        (imgs : PyDict.t (option image)) (p : string) :
  PyStr.startswith "signatures/" p = false ->
  PyDict.get p (other_files (snd (fst (save_signatories env fs sigs imgs))))
  = PyDict.get p (other_files fs).
Proof.
  intros Hp. unfold save_signatories.
  destruct (backup_signatories_file env fs) as [fs1|] eqn:Hb; [|reflexivity].
  apply backup_other_files in Hb as [Hfiles _].
  destruct (write env); cbn [fst snd other_files];
    rewrite save_fold_files_other by exact Hp; cbn; now rewrite Hfiles.
Qed.

Lemma X9_frame_witness :
  PyDict.get "invoice/a.png"
    (other_files (snd (fst (save_signatories (Ex.quiet "20240101_120000")
                              ExFiles.with_sample Ex.roster [("Bob", Some (Ex.rgb 7))]))))
  = Some (Decodable (Ex.rgb 9)).
Proof.
  apply (X9_save_writes_only_signature_files
           (Ex.quiet "20240101_120000") ExFiles.with_sample Ex.roster
           [("Bob", Some (Ex.rgb 7))] "invoice/a.png").
  reflexivity.
Defined.

(** X10.  Outside the backups directory a save deletes nothing (the only
    files it removes are old backups, through [backup_signatories_file]):
    a registry file that exists before exists after, and every other
    path that exists before exists after, so the image file of a
    signatory that was removed from the roster, or whose image was
    replaced under another name, stays on disk. *)
Theorem X10_save_deletes_only_backups
        (env : io) (fs : filesystem) (sigs : PyDict.t Z)
        (imgs : PyDict.t (option image)) :
  let fs' := snd (fst (save_signatories env fs sigs imgs)) in
  (signatories_file fs <> None -> signatories_file fs' <> None) /\
  forall p, In p (PyDict.keys (other_files fs)) ->
            In p (PyDict.keys (other_files fs')).
Proof.
  intros fs'. subst fs'. unfold save_signatories.
  destruct (backup_signatories_file env fs) as [fs1|] eqn:Hb; [|now split].
  apply backup_other_files in Hb as [Hfiles Hfile]. rewrite <- Hfiles, <- Hfile.
  destruct (write env); cbn [fst snd other_files signatories_file];
    (split; [try discriminate; auto | intros p Hin; now apply save_fold_files_grow]).
Qed.

Lemma X10_removed_signatory_keeps_file_witness :
  let fs' := snd (fst (save_signatories (Ex.quiet "20240101_120000") ExFiles.with_bob_image
                                        [("Alice", 1000%Z)] [])) in
  signatories_file fs' <> None /\
  In "signatures/Bob_signature.jpg" (PyDict.keys (other_files fs')).
Proof.
  destruct (X10_save_deletes_only_backups
              (Ex.quiet "20240101_120000") ExFiles.with_bob_image
              [("Alice", 1000%Z)] []) as [Hfile Hpaths].
  split.
  - apply Hfile. discriminate.
  - apply Hpaths. left. reflexivity.
Defined.

(** X11.  [save_signatories] returns [True] exactly when the backup copy
    did not fail (or there was no registry file to copy) and the registry
    file was written whole; a reference image that cannot be saved never
    makes the save fail. *)
Theorem X11_save_succeeds_iff
        (env : io) (fs : filesystem) (sigs : PyDict.t Z)
        (imgs : PyDict.t (option image)) :
  fst (fst (save_signatories env fs sigs imgs)) = true
  <-> (signatories_file fs = None \/ copy_ok env = true) /\ write env = WriteOk.
Proof.
  unfold save_signatories, backup_signatories_file.
  destruct (signatories_file fs) as [content|]; [destruct (copy_ok env)|];
    destruct (write env); cbn; intuition congruence.
Qed.

(** ** What the rotation of the backups leaves alone *)

Lemma evicted_is_backup dir x :
  In x (all_but_last_5 (py_sorted (backup_names dir))) ->
  PyStr.startswith backup_prefix x = true.
Proof.
  intros Hin. unfold all_but_last_5 in Hin.
  assert (In x (py_sorted (backup_names dir))) as Hs.
  { rewrite <- (firstn_skipn (length (py_sorted (backup_names dir)) - 5)).
    apply in_or_app. now left. }
  apply (Permutation_in _ (py_sorted_perm _)) in Hs.
  now apply in_backup_names in Hs.
Qed.

(** X12.  Making a backup touches only backup files: a file of the
    backups directory whose name does not start with
    "signatories_backup_" is neither overwritten nor removed, whatever
    its name and however many backups there are. *)
Theorem X12_backup_leaves_other_files
        (env : io) (fs fs1 : filesystem) (f : string) :
  backup_signatories_file env fs = Some fs1 ->
  PyStr.startswith backup_prefix f = false ->
  PyDict.get f (backups_dir fs1) = PyDict.get f (backups_dir fs).
Proof.
  unfold backup_signatories_file. intros Hb Hf.
  destruct (signatories_file fs) as [content|]; [|now injection Hb as <-].
  destruct (copy_ok env); [|discriminate].
  injection Hb as <-. cbn [backups_dir].
  rewrite get_fold_try_remove.
  - apply get_set_other. intros ->.
    rewrite startswith_backup_name in Hf. discriminate.
  - intros Hin. apply evicted_is_backup in Hin. congruence.
Qed.

Lemma X12_other_file_witness :
  exists fs1,
    backup_signatories_file (Ex.quiet "20240101_120000") ExFiles.with_note = Some fs1 /\
    PyDict.get "README.txt" (backups_dir fs1) = Some (Whole []).
Proof.
  eexists. split; [reflexivity|].
  refine (X12_backup_leaves_other_files
            (Ex.quiet "20240101_120000") ExFiles.with_note _ "README.txt" _ _);
    reflexivity.
Defined.

(** X13.  Whatever the removals do (succeed or fail, one by one), a
    backup never removes one of the five greatest backup names of the
    directory, the name of the backup just written counted among the
    candidates: a file under one of these five names keeps its content.
    (The backup just written is one of them only when fewer than five
    names sort after it.) *)
Theorem X13_backup_keeps_five_newest
        (env : io) (fs fs1 : filesystem) (content : registry_file) (f : string) :
  signatories_file fs = Some content ->
  NoDup (PyDict.keys (backups_dir fs)) ->
  backup_signatories_file env fs = Some fs1 ->
  let dir1 := PyDict.set (backup_name (now env)) content (backups_dir fs) in
  In f (last5 (py_sorted (backup_names dir1))) ->
  PyDict.get f (backups_dir fs1) = PyDict.get f dir1 /\
  PyDict.get f (backups_dir fs1) <> None.
Proof.
  intros Hfile Hnd Hb dir1 Hin. unfold backup_signatories_file in Hb.
  rewrite Hfile in Hb. destruct (copy_ok env); [|discriminate].
  injection Hb as <-. cbn [backups_dir]. fold dir1.
  assert (Hnds : NoDup (py_sorted (backup_names dir1))).
  { eapply Permutation_NoDup; [symmetry; apply py_sorted_perm|].
    apply NoDup_backup_names. now apply NoDup_keys_set. }
  assert (Hkeep : PyDict.get f (fold_left (try_remove env)
                                  (all_but_last_5 (py_sorted (backup_names dir1))) dir1)
                  = PyDict.get f dir1).
  { apply get_fold_try_remove. intros Hold.
    rewrite <- (all_but_last_5_last5 (py_sorted (backup_names dir1))) in Hnds.
    exact (NoDup_app_disjoint _ _ f Hnds Hold Hin). }
  split; [exact Hkeep|]. rewrite Hkeep.
  apply in_last5 in Hin. apply (Permutation_in _ (py_sorted_perm _)) in Hin.
  apply in_backup_names in Hin as [Hin _].
  intros Hnone. revert Hin. clear -Hnone.
  induction dir1 as [|[k v] d IH]; cbn in *; [tauto|].
  destruct (String.eqb_spec f k) as [->|Hne]; [discriminate|].
  intros [-> | Hin]; [congruence | auto].
Qed.

Lemma X13_stubborn_witness :
  exists fs1,
    backup_signatories_file ExBackups.picky_removal ExBackups.six_older_backups
    = Some fs1 /\
    PyDict.get (backup_name "20230103_000000") (backups_dir fs1) <> None.
Proof.
  eexists. split; [reflexivity|].
  refine (proj2 (X13_backup_keeps_five_newest
                   ExBackups.picky_removal ExBackups.six_older_backups _
                   (Whole [("Alice", Ex.alice_entry)]) (backup_name "20230103_000000")
                   _ _ _ _)).
  - reflexivity.
  - repeat constructor; cbn; intuition discriminate.
  - reflexivity.
  - vm_compute. left. reflexivity.
Defined.

(** in that run seven names are candidates and the two oldest are picked:
    the removal of the oldest fails and it stays, the second is removed,
    the five greatest are kept *)
Example rotation_with_a_stubborn_file :
  exists fs1,
    backup_signatories_file ExBackups.picky_removal ExBackups.six_older_backups
    = Some fs1 /\
    PyDict.keys (backups_dir fs1)
    = map backup_name ["20230101_000000"; "20230103_000000"; "20230104_000000";
                       "20230105_000000"; "20230106_000000"; "20240101_120000"].
Proof. eexists. split; reflexivity. Qed.

(** ** The session and the registry file *)

Lemma in_keys_get {V : Type} (d : PyDict.t V) (k : string) :
  In k (PyDict.keys d) -> exists v, PyDict.get k d = Some v.
Proof.
  induction d as [|[k' v'] d IH]; cbn; [tauto|].
  destruct (String.eqb_spec k k') as [->|Hne]; [eauto|].
  intros [-> | Hin]; [congruence | auto].
Qed.

Lemma mem_false_notin {V : Type} (d : PyDict.t V) (k : string) :
  PyDict.mem k d = false -> ~ In k (PyDict.keys d).
Proof.
  unfold PyDict.mem. intros Hmem Hin.
  apply in_keys_get in Hin as [v Hv]. rewrite Hv in Hmem. discriminate.
Qed.

Lemma get_del_same {V : Type} (d : PyDict.t V) (k : string) :
  NoDup (PyDict.keys d) -> PyDict.get k (PyDict.del k d) = None.
Proof.
  intros Hnd. apply get_notin. rewrite (in_keys_del _ d k k Hnd). tauto.
Qed.

Lemma load_entry_ok files acc item :
  NoDup (PyDict.keys (ld_signatories acc)) ->
  NoDup (PyDict.keys (ld_signature_images acc)) ->
  (forall n, In n (PyDict.keys (ld_signature_images acc)) ->
             In n (PyDict.keys (ld_signatories acc))) ->
  let r := load_entry files acc item in
  NoDup (PyDict.keys (ld_signatories r)) /\
  NoDup (PyDict.keys (ld_signature_images r)) /\
  (forall n, In n (PyDict.keys (ld_signature_images r)) ->
             In n (PyDict.keys (ld_signatories r))).
Proof.
  intros Hs Hi Hsub r. subst r. destruct item as [name data]. unfold load_entry.
  destruct (signature_image_path data) as [p|];
    [destruct (PyDict.get p files) as [f|]; [destruct (safe_open_image f)|]|];
    cbn [ld_signatories ld_signature_images];
    (split; [now apply NoDup_keys_set|]);
    (split; [try exact Hi; now apply NoDup_keys_set|]);
    intros n Hn; apply in_keys_set;
    try (apply in_keys_set in Hn as [Hn | ->]; [left; now apply Hsub | now right]);
    left; now apply Hsub.
Qed.

Lemma load_fold_ok files data : forall acc,
  NoDup (PyDict.keys (ld_signatories acc)) ->
  NoDup (PyDict.keys (ld_signature_images acc)) ->
  (forall n, In n (PyDict.keys (ld_signature_images acc)) ->
             In n (PyDict.keys (ld_signatories acc))) ->
  let r := fold_left (load_entry files) data acc in
  NoDup (PyDict.keys (ld_signatories r)) /\
  NoDup (PyDict.keys (ld_signature_images r)) /\
  (forall n, In n (PyDict.keys (ld_signature_images r)) ->
             In n (PyDict.keys (ld_signatories r))).
Proof.
  induction data as [|item data IH]; intros acc Hs Hi Hsub; cbn [fold_left].
  - now repeat split.
  - destruct (load_entry_ok files acc item Hs Hi Hsub) as (Hs' & Hi' & Hsub').
    now apply IH.
Qed.

Lemma initial_session_ok (fs : filesystem) : session_ok (initial_session fs).
Proof.
  unfold initial_session, load_signatories, session_ok.
  destruct (signatories_file fs) as [[data|data k]|]; cbn;
    try (repeat split; try constructor; intros n []).
  apply (load_fold_ok (other_files fs) data); cbn; try constructor. intros n [].
Qed.

Lemma upsert_click_ok env s fs is_new name amount upload s' fs' msgs :
  session_ok s ->
  upsert_click env s fs is_new name amount upload = Returns (s', fs', msgs) ->
  session_ok s'.
Proof.
  intros (Hs & Hi & Hsub) Hclick. unfold upsert_click in Hclick.
  destruct (PyStr.truthy name && (amount >? 0)%Z);
    [|injection Hclick as <- _ _; now repeat split].
  assert (Hsub' : forall n, In n (PyDict.keys (signature_images s)) ->
                  In n (PyDict.keys (PyDict.set name amount (signatories s)))).
  { intros n Hn. apply in_keys_set. left. now apply Hsub. }
  destruct upload as [upload|].
  - destruct (safe_open_image upload) as [[img|] m0].
    + destruct (save_signatories env fs _ _) as [[ok fs1] m].
      injection Hclick as <- _ _. unfold session_ok; cbn.
      split; [now apply NoDup_keys_set|]. split; [now apply NoDup_keys_set|].
      intros n Hn. apply in_keys_set in Hn as [Hn | ->].
      * now apply Hsub'.
      * apply in_keys_set. now right.
    + injection Hclick as <- _ _. unfold session_ok; cbn.
      split; [now apply NoDup_keys_set|]. now split.
  - destruct (save_signatories env fs _ _) as [[ok fs1] m].
    injection Hclick as <- _ _. unfold session_ok; cbn.
    split; [now apply NoDup_keys_set|]. now split.
Qed.

Lemma remove_click_ok env s fs name s' fs' msgs :
  session_ok s ->
  remove_click env s fs name = Returns (s', fs', msgs) ->
  session_ok s'.
Proof.
  intros (Hs & Hi & Hsub) Hclick. unfold remove_click in Hclick.
  destruct (PyDict.mem name (signatories s)); [|discriminate].
  destruct (save_signatories env fs _ _) as [[ok fs1] m].
  injection Hclick as <- _ _. unfold session_ok; cbn.
  split; [now apply NoDup_keys_del|].
  destruct (PyDict.mem name (signature_images s)) eqn:Hmem.
  - split; [now apply NoDup_keys_del|].
    intros n Hn. apply (in_keys_del _ _ name n Hi) in Hn as [Hn Hne].
    apply (in_keys_del _ _ name n Hs). split; [now apply Hsub | exact Hne].
  - split; [exact Hi|].
    intros n Hn. apply (in_keys_del _ _ name n Hs). split; [now apply Hsub|].
    intros ->. now apply (mem_false_notin _ _ Hmem).
Qed.

(** X14.  In every state that the session reaches from a load of the
    registry through the add/update and remove buttons and through
    verifications, the two dictionaries have unique keys and every name
    that has a reference image is a registered signatory. *)
Theorem X14_session_dictionaries_stay_consistent
        (s : session_state) (fs : filesystem) :
  reachable s fs -> session_ok s.
Proof.
  induction 1 as [fs | env s fs is_new name amount upload s' fs' msgs _ IH Hclick
                  | env s fs name s' fs' msgs _ IH Hclick
                  | s fs s' _ IH Hstart
                  | jpeg http invoice s fs _ IH _ _
                  | s fs _ IH _].
  - apply initial_session_ok.
  - eapply upsert_click_ok; eauto.
  - eapply remove_click_ok; eauto.
  - injection Hstart as <-. exact IH.
  - unfold run_verification.
    destruct (call_claude_api _ _ _ _ _); exact IH.
  - exact IH.
Qed.

Lemma X14_reachable_witness :
  session_ok (with_roster (initial_session Ex.bob_fs)
                          (PyDict.set "Alice" 2000%Z (signatories (initial_session Ex.bob_fs)))
                          (signature_images (initial_session Ex.bob_fs))).
Proof.
  apply (X14_session_dictionaries_stay_consistent _
           (snd (fst (save_signatories (Ex.quiet "20240101_120000") Ex.bob_fs
                        (PyDict.set "Alice" 2000%Z (signatories (initial_session Ex.bob_fs)))
                        (signature_images (initial_session Ex.bob_fs)))))).
  refine (@reach_upsert (Ex.quiet "20240101_120000") (initial_session Ex.bob_fs) Ex.bob_fs
                        false "Alice" 2000%Z None _ _
                        (snd (save_signatories (Ex.quiet "20240101_120000") Ex.bob_fs
                                (PyDict.set "Alice" 2000%Z
                                            (signatories (initial_session Ex.bob_fs)))
                                (signature_images (initial_session Ex.bob_fs)))
                         ++ [saved_msg true false "Alice"]) _ _).
  - apply reach_load.
  - vm_compute. reflexivity.
Defined.

(** ** Memory and disk after a click *)

Lemma save_load_signatories env fs sigs imgs fs' msgs :
  NoDup (PyDict.keys sigs) ->
  save_signatories env fs sigs imgs = (true, fs', msgs) ->
  loaded_signatories fs' = sigs.
Proof.
  intros Hnd Hsave. unfold save_signatories in Hsave.
  destruct (backup_signatories_file env fs) as [fs1|]; [|discriminate].
  destruct (write env); try discriminate.
  injection Hsave as <- _. unfold loaded_signatories, load_signatories. cbn.
  pose proof (save_fold_limits env imgs sigs
                {| sv_data := []; sv_files := other_files fs1; sv_msgs := [] |}) as Hdata.
  cbn in Hdata. specialize (Hdata Hnd).
  rewrite load_fold_signatories; cbn.
  - exact Hdata.
  - rewrite <- keys_limits, Hdata. exact Hnd.
Qed.

Lemma save_entry_no_success env imgs acc item :
  (forall t, ~ In (st_success t) (sv_msgs acc)) ->
  forall t, ~ In (st_success t) (sv_msgs (save_entry env imgs acc item)).
Proof.
  intros Hacc t. destruct item as [name amount]. unfold save_entry. cbv zeta.
  destruct (PyDict.get name imgs) as [[img|]|]; cbn [sv_msgs]; try apply Hacc.
  destruct (image_save_ok env img _); cbn [sv_msgs]; [apply Hacc|].
  destruct (image_save_ok env _ _); cbn [sv_msgs]; [apply Hacc|].
  intros Hin. apply in_app_or in Hin as [Hin | [Hin | []]];
    [now apply (Hacc t) | discriminate].
Qed.

Lemma save_fold_no_success env imgs sigs : forall acc,
  (forall t, ~ In (st_success t) (sv_msgs acc)) ->
  forall t, ~ In (st_success t) (sv_msgs (fold_left (save_entry env imgs) sigs acc)).
Proof.
  induction sigs as [|item sigs IH]; intros acc Hacc; cbn [fold_left]; [exact Hacc|].
  apply IH. now apply save_entry_no_success.
Qed.

Lemma save_no_success env fs sigs imgs t :
  ~ In (st_success t) (snd (save_signatories env fs sigs imgs)).
Proof.
  unfold save_signatories.
  destruct (backup_signatories_file env fs) as [fs1|].
  - pose proof (save_fold_no_success env imgs sigs
                  {| sv_data := []; sv_files := other_files fs1; sv_msgs := [] |}
                  (fun t H => H) t) as Hfold.
    destruct (write env); cbn [snd]; [exact Hfold| |];
      intros Hin; apply in_app_or in Hin as [Hin | [Hin | []]];
      try (now apply Hfold); discriminate.
  - cbn. intros [H | []]. discriminate.
Qed.

Lemma save_result_no_success env fs sigs imgs ok fs' m t :
  save_signatories env fs sigs imgs = (ok, fs', m) -> ~ In (st_success t) m.
Proof.
  intros Hsave. pose proof (save_no_success env fs sigs imgs t) as H.
  now rewrite Hsave in H.
Qed.

Lemma saved_msg_success ok is_new name t :
  saved_msg ok is_new name = st_success t -> ok = true.
Proof. destruct ok; [reflexivity | discriminate]. Qed.

(** X15.  When the add/update button shows its success message, the
    registry file holds exactly the roster that the session has in
    memory (same names, same limits, same order), with the new limit for
    the name that was entered. *)
Theorem X15_success_message_means_saved
        (env : io) (s s' : session_state) (fs fs' : filesystem) (is_new : bool)
        (new_name : string) (new_amount : Z) (new_signature : option image_file)
        (msgs : list ui_msg) (text : string) :
  session_ok s ->
  upsert_click env s fs is_new new_name new_amount new_signature
  = Returns (s', fs', msgs) ->
  In (st_success text) msgs ->
  loaded_signatories fs' = signatories s' /\
  PyDict.get new_name (signatories s') = Some new_amount.
Proof.
  intros (Hs & _ & _) Hclick Hin. unfold upsert_click in Hclick.
  destruct (PyStr.truthy new_name && (new_amount >? 0)%Z);
    [|injection Hclick as _ _ <-; destruct Hin].
  assert (Hnd : NoDup (PyDict.keys (PyDict.set new_name new_amount (signatories s))))
    by now apply NoDup_keys_set.
  destruct new_signature as [upload|].
  - destruct upload as [im|]; cbn [safe_open_image] in Hclick.
    + destruct (save_signatories env fs _ _) as [[ok fs1] m] eqn:Hsave.
      injection Hclick as <- <- <-. cbn [app] in Hin.
      apply in_app_or in Hin as [Hin | [Hin | []]].
      * exfalso. exact (save_result_no_success _ _ _ _ _ _ _ text Hsave Hin).
      * apply saved_msg_success in Hin. subst ok. cbn.
        split; [eapply save_load_signatories; eauto | apply get_set_same].
    + injection Hclick as _ _ <-.
      destruct Hin as [Hin | [Hin | []]]; discriminate.
  - destruct (save_signatories env fs _ _) as [[ok fs1] m] eqn:Hsave.
    injection Hclick as <- <- <-.
    apply in_app_or in Hin as [Hin | [Hin | []]].
    + exfalso. exact (save_result_no_success _ _ _ _ _ _ _ text Hsave Hin).
    + apply saved_msg_success in Hin. subst ok. cbn.
      split; [eapply save_load_signatories; eauto | apply get_set_same].
Qed.

Lemma X15_success_witness :
  let r := save_signatories (Ex.quiet "20240101_120000") Ex.alice_fs
                            (PyDict.set "Bob" 500%Z (signatories Ex.idle)) [] in
  loaded_signatories (snd (fst r))
  = signatories (with_roster Ex.idle (PyDict.set "Bob" 500%Z (signatories Ex.idle)) []) /\
  PyDict.get "Bob"
    (signatories (with_roster Ex.idle (PyDict.set "Bob" 500%Z (signatories Ex.idle)) []))
  = Some 500%Z.
Proof.
  intros r.
  refine (X15_success_message_means_saved
            (Ex.quiet "20240101_120000") Ex.idle _ Ex.alice_fs _ false "Bob" 500%Z None
            (snd r ++ [saved_msg true false "Bob"])
            "מורשה החתימה Bob עודכן בהצלחה!" _ _ _).
  - repeat split; cbn; repeat constructor; cbn; intuition discriminate.
  - vm_compute. reflexivity.
  - vm_compute. left. reflexivity.
Defined.

Lemma save_fault_free env fs sigs imgs :
  fault_free env -> fst (fst (save_signatories env fs sigs imgs)) = true.
Proof.
  intros (Hcopy & _ & Hwrite). unfold save_signatories, backup_signatories_file.
  destruct (signatories_file fs); rewrite ?Hcopy, Hwrite; reflexivity.
Qed.

(** X16.  After the remove button, when nothing fails during the save,
    the name has neither a limit nor an image in the session, every other
    signatory keeps its limit, and the registry file holds exactly the
    roster that is left in memory. *)
Theorem X16_remove_is_persisted
        (env : io) (s s' : session_state) (fs fs' : filesystem)
        (name : string) (msgs : list ui_msg) :
  session_ok s ->
  fault_free env ->
  remove_click env s fs name = Returns (s', fs', msgs) ->
  loaded_signatories fs' = signatories s' /\
  PyDict.get name (signatories s') = None /\
  PyDict.get name (signature_images s') = None /\
  forall other, other <> name ->
    PyDict.get other (signatories s') = PyDict.get other (signatories s).
Proof.
  intros (Hs & Hi & _) Hff Hclick. unfold remove_click in Hclick.
  destruct (PyDict.mem name (signatories s)); [|discriminate].
  pose proof (save_fault_free env fs (PyDict.del name (signatories s))
                (if PyDict.mem name (signature_images s)
                 then PyDict.del name (signature_images s)
                 else signature_images s) Hff) as Hok.
  destruct (save_signatories env fs _ _) as [[ok fs1] m] eqn:Hsave.
  cbn in Hok. subst ok. injection Hclick as <- <- _. cbn.
  split; [eapply save_load_signatories; eauto; now apply NoDup_keys_del|].
  split; [now apply get_del_same|].
  split.
  - destruct (PyDict.mem name (signature_images s)) eqn:Hmem.
    + now apply get_del_same.
    + apply get_notin. now apply mem_false_notin.
  - intros other Hne. now apply get_del_other.
Qed.

Lemma X16_remove_witness :
  loaded_signatories
    (snd (fst (save_signatories (Ex.quiet "20240101_120000") Ex.alice_fs
                                (PyDict.del "Bob" (signatories Ex.idle)) [])))
  = PyDict.del "Bob" (signatories Ex.idle).
Proof.
  refine (proj1 (X16_remove_is_persisted
                   (Ex.quiet "20240101_120000") Ex.idle
                   (with_roster Ex.idle (PyDict.del "Bob" (signatories Ex.idle)) [])
                   Ex.alice_fs _ "Bob"
                   (snd (save_signatories (Ex.quiet "20240101_120000") Ex.alice_fs
                                          (PyDict.del "Bob" (signatories Ex.idle)) []))
                   _ _ _)).
  - repeat split; cbn; repeat constructor; cbn; intuition discriminate.
  - split; [reflexivity|]. split; [intros f; reflexivity | reflexivity].
  - vm_compute. reflexivity.
Defined.

(** X17.  When the uploaded signature cannot be opened, the button still
    changes the limit in memory but saves nothing: the file system is
    left as it was, no success or failure of a save is reported, and the
    registry file keeps the old limit until a later save. *)
Theorem X17_undecodable_upload_is_not_saved
        (env : io) (s : session_state) (fs : filesystem) (is_new : bool)
        (new_name : string) (new_amount : Z) :
  new_name <> "" -> (0 < new_amount)%Z ->
  exists s' msgs,
    upsert_click env s fs is_new new_name new_amount (Some Corrupt)
    = Returns (s', fs, msgs) /\
    PyDict.get new_name (signatories s') = Some new_amount /\
    signature_images s' = signature_images s /\
    (forall text, ~ In (st_success text) msgs) /\
    (PyDict.get new_name (loaded_signatories fs) <> Some new_amount ->
     loaded_signatories fs <> signatories s').
Proof.
  intros Hname Hamount. unfold upsert_click.
  assert (PyStr.truthy new_name = true) as -> by (destruct new_name; [congruence | reflexivity]).
  assert ((new_amount >? 0)%Z = true) as -> by (apply Z.gtb_lt; lia).
  cbn. eexists. eexists. split; [reflexivity|]. cbn.
  split; [apply get_set_same|]. split; [reflexivity|]. split.
  - intros text [H | [H | []]]; discriminate.
  - intros Hold Heq. apply Hold. rewrite Heq. apply get_set_same.
Qed.

Lemma X17_upload_witness :
  exists s' msgs,
    upsert_click (Ex.quiet "20240101_120000") Ex.idle Ex.alice_fs false "Alice" 2000%Z
                 (Some Corrupt)
    = Returns (s', Ex.alice_fs, msgs) /\
    PyDict.get "Alice" (signatories s') = Some 2000%Z /\
    signature_images s' = signature_images Ex.idle /\
    (forall text, ~ In (st_success text) msgs) /\
    (PyDict.get "Alice" (loaded_signatories Ex.alice_fs) <> Some 2000%Z ->
     loaded_signatories Ex.alice_fs <> signatories s').
Proof.
  apply (X17_undecodable_upload_is_not_saved
           (Ex.quiet "20240101_120000") Ex.idle Ex.alice_fs false "Alice" 2000%Z).
  - discriminate.
  - lia.
Defined.

(** ** Reference images through a save and a load *)

Lemma length_append (a x : string) :
  String.length (a ++ x) = String.length a + String.length x.
Proof. induction a as [|c a IH]; cbn; congruence. Qed.

Lemma append_inj_suffix (x y : string) : forall a b : string,
  String.length x = String.length y ->
  (a ++ x)%string = (b ++ y)%string -> a = b.
Proof.
  induction a as [|c a IH]; intros [|d b] Hlen Heq; [reflexivity| | |].
  - apply (f_equal String.length) in Heq. cbn in Heq. rewrite length_append in Heq. lia.
  - apply (f_equal String.length) in Heq. cbn in Heq. rewrite length_append in Heq. lia.
  - cbn in Heq. injection Heq as -> Heq. f_equal. now apply IH.
Qed.

Lemma signature_filename_stem (n1 n2 e1 e2 : string) :
  String.length e1 = String.length e2 ->
  signature_filename n1 e1 = signature_filename n2 e2 ->
  file_stem n1 = file_stem n2.
Proof.
  intros Hlen Heq. unfold signature_filename in Heq. cbn in Heq.
  injection Heq as Heq. fold (file_stem n1) (file_stem n2) in Heq.
  apply append_inj_suffix in Heq; [exact Heq|].
  cbn. now rewrite Hlen.
Qed.

Lemma save_entry_files_keep env imgs acc n a p :
  (forall ext, String.length ext = 3 -> signature_filename n ext <> p) ->
  PyDict.get p (sv_files (save_entry env imgs acc (n, a))) = PyDict.get p (sv_files acc).
Proof.
  intros Hne. unfold save_entry. cbv zeta.
  destruct (PyDict.get n imgs) as [[img|]|]; cbn [sv_files]; try reflexivity.
  destruct (image_save_ok env img _); cbn [sv_files];
    [| destruct (image_save_ok env _ _); cbn [sv_files] ];
    try reflexivity; apply get_set_other; intros ->;
    (eapply Hne; [|reflexivity]);
    destruct (String.eqb (img_mode img) "RGBA"); reflexivity.
Qed.

Lemma save_fold_files_keep env imgs p sigs : forall acc,
  (forall n ext, In n (PyDict.keys sigs) -> String.length ext = 3 ->
                 signature_filename n ext <> p) ->
  PyDict.get p (sv_files (fold_left (save_entry env imgs) sigs acc))
  = PyDict.get p (sv_files acc).
Proof.
  induction sigs as [|[n a] sigs IH]; intros acc Hne; cbn [fold_left]; [reflexivity|].
  rewrite IH.
  - apply save_entry_files_keep. intros ext. apply Hne. now left.
  - intros n' ext Hin. apply Hne. now right.
Qed.

Lemma save_fold_image env imgs name amount img sigs : forall acc,
  NoDup (PyDict.keys sigs) ->
  PyDict.get name sigs = Some amount ->
  PyDict.get name imgs = Some (Some img) ->
  image_save_ok env img (signature_filename name (signature_ext img)) = true ->
  (forall other, In other (PyDict.keys sigs) -> other <> name ->
                 file_stem other <> file_stem name) ->
  let r := fold_left (save_entry env imgs) sigs acc in
  PyDict.get name (sv_data r)
  = Some {| max_amount := amount;
            signature_image_path :=
              Some (signature_filename name (signature_ext img)) |} /\
  PyDict.get (signature_filename name (signature_ext img)) (sv_files r)
  = Some (stored env img (signature_format img)).
Proof.
  induction sigs as [|[n a] sigs IH]; intros acc Hnd Hget Himg Hok Hstems; [discriminate|].
  cbn in Hnd. apply NoDup_cons_iff in Hnd as [Hnotin Hnd].
  cbn [fold_left]. cbn in Hget.
  destruct (String.eqb_spec name n) as [->|Hne].
  - injection Hget as ->. cbv zeta.
    rewrite save_fold_get_notin by exact Hnotin.
    rewrite save_fold_files_keep.
    + unfold save_entry. rewrite Himg. cbv zeta.
      unfold signature_ext, signature_format in *. rewrite Hok.
      cbn [sv_data sv_files]. split; apply get_set_same.
    + intros other ext Hin Hlen Heq.
      apply (Hstems other); [now right | intros ->; contradiction |].
      eapply signature_filename_stem; [|exact Heq].
      rewrite Hlen. unfold signature_ext.
      destruct (String.eqb (img_mode img) "RGBA"); reflexivity.
  - apply IH; auto. intros other Hin. apply Hstems. now right.
Qed.

Lemma load_entry_image files acc name amount p im :
  PyDict.get p files = Some (Decodable im) ->
  PyDict.get name
    (ld_signature_images
       (load_entry files acc
          (name, {| max_amount := amount; signature_image_path := Some p |})))
  = Some (fst (safe_open_image (Decodable im))).
Proof.
  intros Hp. unfold load_entry. cbn [signature_image_path]. rewrite Hp.
  cbn [safe_open_image ld_signature_images fst]. apply get_set_same.
Qed.

Lemma load_fold_image files name amount p im data : forall acc,
  NoDup (PyDict.keys data) ->
  PyDict.get name data
  = Some {| max_amount := amount; signature_image_path := Some p |} ->
  PyDict.get p files = Some (Decodable im) ->
  PyDict.get name (ld_signature_images (fold_left (load_entry files) data acc))
  = Some (fst (safe_open_image (Decodable im))).
Proof.
  induction data as [|[n e] data IH]; intros acc Hnd Hget Hp; [discriminate|].
  cbn in Hnd. apply NoDup_cons_iff in Hnd as [Hnotin Hnd].
  cbn [fold_left]. cbn in Hget.
  destruct (String.eqb_spec name n) as [->|Hne].
  - injection Hget as ->.
    rewrite load_fold_images_notin by exact Hnotin.
    now apply load_entry_image.
  - now apply IH.
Qed.

(** X18.  A reference image is not lost, nor exchanged for another
    signatory's, by a successful save followed by a load: when the image
    is written by its first [img.save] and no other signatory of the
    roster has the same file stem, loading the registry gives the
    signatory the image that is read back from the file written for this
    image, in PNG format when the mode is RGBA and in JPEG format
    otherwise.  Its mode and raster are those the codec gives back, which
    need not be the original ones (JPEG is lossy). *)
Theorem X18_reference_image_round_trip
        (env : io) (fs fs' : filesystem) (sigs : PyDict.t Z)
        (imgs : PyDict.t (option image)) (msgs : list ui_msg)
        (name : string) (amount : Z) (img : image) :
  NoDup (PyDict.keys sigs) ->
  PyDict.get name sigs = Some amount ->
  PyDict.get name imgs = Some (Some img) ->
  image_save_ok env img (signature_filename name (signature_ext img)) = true ->
  (forall other, In other (PyDict.keys sigs) -> other <> name ->
                 file_stem other <> file_stem name) ->
  save_signatories env fs sigs imgs = (true, fs', msgs) ->
  PyDict.get name (loaded_images fs')
  = Some (Some {| img_format := signature_format img;
                  img_mode := img_mode (reopened env img (signature_format img));
                  img_pixels := img_pixels (reopened env img (signature_format img)) |}).
Proof.
  intros Hnd Hget Himg Hok Hstems Hsave. unfold save_signatories in Hsave.
  destruct (backup_signatories_file env fs) as [fs1|]; [|discriminate].
  destruct (write env); try discriminate.
  injection Hsave as <- _.
  set (acc0 := {| sv_data := []; sv_files := other_files fs1; sv_msgs := [] |}).
  destruct (save_fold_image env imgs name amount img sigs acc0 Hnd Hget Himg Hok Hstems)
    as [Hdata Hfile].
  assert (Hkeys : NoDup (PyDict.keys (sv_data (fold_left (save_entry env imgs) sigs acc0)))).
  { rewrite <- keys_limits, (save_fold_limits env imgs sigs acc0 Hnd). exact Hnd. }
  unfold loaded_images, load_signatories. cbn [signatories_file other_files fst snd].
  rewrite (load_fold_image _ name amount _ _ _ _ Hkeys Hdata Hfile).
  unfold signature_format. cbn [safe_open_image fst img_format img_mode].
  destruct (String.eqb (img_mode img) "RGBA"); reflexivity.
Qed.

Lemma X18_round_trip_witness :
  PyDict.get "Bob"
    (loaded_images (snd (fst (save_signatories ExFiles.lossy_jpeg Ex.alice_fs
                                Ex.roster [("Bob", Some (Ex.rgb 7))]))))
  = Some (Some {| img_format := "JPEG"; img_mode := "RGB"; img_pixels := 8 |}).
Proof.
  refine (X18_reference_image_round_trip
            ExFiles.lossy_jpeg Ex.alice_fs _ Ex.roster
            [("Bob", Some (Ex.rgb 7))]
            (snd (save_signatories ExFiles.lossy_jpeg Ex.alice_fs
                                   Ex.roster [("Bob", Some (Ex.rgb 7))]))
            "Bob" 500%Z (Ex.rgb 7) _ _ _ _ _ _).
  - repeat constructor; cbn; intuition discriminate.
  - reflexivity.
  - reflexivity.
  - reflexivity.
  - intros other Hin Hne. cbn in Hin.
    destruct Hin as [<- | [<- | []]]; [vm_compute; discriminate | now destruct Hne].
  - vm_compute. reflexivity.
Defined.

(** two signatories whose names share a file stem: the image saved for
    the first is overwritten by the image of the second *)
Example shared_stem_loses_an_image :
  let imgs := [("Dana Levi", Some (Ex.rgb 1)); ("Dana_Levi", Some (Ex.rgb 2))] in
  let sigs := [("Dana Levi", 100%Z); ("Dana_Levi", 200%Z)] in
  let fs' := snd (fst (save_signatories (Ex.quiet "20240101_120000") Ex.empty_fs sigs imgs)) in
  option_map (option_map img_pixels) (PyDict.get "Dana Levi" (loaded_images fs'))
  = Some (Some 2).
Proof. vm_compute. reflexivity. Qed.

(** ** The sample invoices *)

Lemma in_glob_star listing suffix p :
  In p (glob_star listing suffix)
  <-> exists name, p = path_join SAMPLE_INVOICES_DIR name /\ In name listing /\
                   PyStr.startswith "." name = false /\ endswith suffix name = true.
Proof.
  unfold glob_star. rewrite in_map_iff. split.
  - intros (name & <- & Hin). apply filter_In in Hin as [Hin Hf].
    apply andb_true_iff in Hf as [Hv He]. apply negb_true_iff in Hv. eauto.
  - intros (name & -> & Hin & Hv & He). exists name. split; [reflexivity|].
    apply filter_In. split; [exact Hin|]. now rewrite Hv, He.
Qed.

(** X19.  The sample selector lists exactly the files of the invoice
    directory whose name does not start with a dot and ends, in lower
    case, with .jpg, .jpeg, .png, .webp, .heic or .heif, each under its
    path in the directory. *)
Theorem X19_samples_are_the_visible_images (listing : list string) (p : string) :
  In p (get_sample_invoices listing)
  <-> exists name, p = path_join SAMPLE_INVOICES_DIR name /\
                   In name listing /\ is_sample name = true.
Proof.
  unfold get_sample_invoices, is_sample.
  assert (Hperm : In p (py_sorted (flat_map (glob_star listing) sample_suffixes))
                  <-> In p (flat_map (glob_star listing) sample_suffixes)).
  { split; apply Permutation_in; [apply py_sorted_perm | symmetry; apply py_sorted_perm]. }
  rewrite Hperm, in_flat_map. split.
  - intros (suffix & Hs & Hin). apply in_glob_star in Hin as (name & -> & Hin & Hv & He).
    exists name. repeat split; auto. rewrite Hv. cbn [negb andb].
    apply existsb_exists. eauto.
  - intros (name & -> & Hin & Hf). apply andb_true_iff in Hf as [Hv He].
    apply negb_true_iff in Hv. apply existsb_exists in He as (suffix & Hs & He).
    exists suffix. split; [exact Hs|]. apply in_glob_star. eauto.
Qed.

Lemma endswith_unfold suffix s :
  endswith suffix s
  = if String.eqb suffix s then true
    else match s with
         | EmptyString => false
         | String _ rest => endswith suffix rest
         end.
Proof. destruct s; reflexivity. Qed.

Lemma endswith_refl s : endswith s s = true.
Proof. rewrite endswith_unfold. now rewrite String.eqb_refl. Qed.

(** two suffixes of one name: one is a suffix of the other *)
Lemma endswith_comparable (a b : string) : forall n,
  endswith a n = true -> endswith b n = true ->
  endswith a b = true \/ endswith b a = true.
Proof.
  induction n as [|c n IH]; rewrite (endswith_unfold a), (endswith_unfold b).
  - destruct (String.eqb_spec a ""), (String.eqb_spec b ""); try discriminate.
    subst. intros _ _. left. apply endswith_refl.
  - destruct (String.eqb_spec a (String c n)) as [->|Ha].
    + intros _ Hb. right. rewrite endswith_unfold.
      destruct (String.eqb b (String c n)); [reflexivity | exact Hb].
    + destruct (String.eqb_spec b (String c n)) as [->|Hb].
      * intros Ha' _. left. rewrite endswith_unfold.
        destruct (String.eqb a (String c n)); [reflexivity | exact Ha'].
      * apply IH.
Qed.

Lemma sample_suffixes_incomparable (s1 s2 : string) :
  In s1 sample_suffixes -> In s2 sample_suffixes -> s1 <> s2 ->
  endswith s1 s2 = false.
Proof.
  intros H1 H2 Hne. cbn in H1, H2.
  repeat (destruct H1 as [<- | H1]; [|]); try contradiction;
    repeat (destruct H2 as [<- | H2]; [|]); try contradiction;
    try reflexivity; now destruct Hne.
Qed.

Lemma path_join_injective directory a b :
  path_join directory a = path_join directory b -> a = b.
Proof.
  unfold path_join. induction directory as [|c d IH]; cbn; intros H.
  - now injection H.
  - injection H as H. now apply IH.
Qed.

Lemma NoDup_map_injective {A B : Type} (f : A -> B) (l : list A) :
  (forall x y, f x = f y -> x = y) -> NoDup l -> NoDup (map f l).
Proof.
  intros Hinj. induction 1 as [|x l Hnot Hnd IH]; cbn; constructor; auto.
  intros Hin. apply in_map_iff in Hin as (y & Heq & Hy).
  apply Hinj in Heq. now subst.
Qed.

Lemma NoDup_flat_map_disjoint {A B : Type} (f : A -> list B) (l : list A) :
  NoDup l ->
  (forall x, In x l -> NoDup (f x)) ->
  (forall x y z, In x l -> In y l -> x <> y -> In z (f x) -> ~ In z (f y)) ->
  NoDup (flat_map f l).
Proof.
  induction 1 as [|x l Hnot Hnd IH]; intros Heach Hdisj; cbn; [constructor|].
  apply NoDup_app.
  - apply Heach. now left.
  - apply IH.
    + intros y Hy. apply Heach. now right.
    + intros y1 y2 z H1 H2. apply Hdisj; now right.
  - intros z Hz Hin. apply in_flat_map in Hin as (y & Hy & Hzy).
    apply (Hdisj x y z); auto; [now left | now right | congruence].
Qed.

(** X20.  The list of sample invoices is in ascending order of [str],
    and a file is listed once: no name matches two of the patterns. *)
Theorem X20_samples_sorted_without_duplicates (listing : list string) :
  NoDup listing ->
  ascending (get_sample_invoices listing) /\ NoDup (get_sample_invoices listing).
Proof.
  intros Hnd. unfold get_sample_invoices. split; [apply py_sorted_ascending|].
  eapply Permutation_NoDup; [symmetry; apply py_sorted_perm|].
  apply NoDup_flat_map_disjoint.
  - repeat constructor; cbn; intuition discriminate.
  - intros suffix _. apply NoDup_map_injective.
    + apply path_join_injective.
    + now apply NoDup_filter.
  - intros s1 s2 p H1 H2 Hne Hp1 Hp2.
    apply in_glob_star in Hp1 as (n1 & -> & _ & _ & He1).
    apply in_glob_star in Hp2 as (n2 & Heq & _ & _ & He2).
    apply path_join_injective in Heq. subst n2.
    destruct (endswith_comparable s1 s2 n1 He1 He2) as [H | H].
    + rewrite (sample_suffixes_incomparable s1 s2 H1 H2 Hne) in H. discriminate.
    + rewrite (sample_suffixes_incomparable s2 s1 H2 H1 (fun e => Hne (eq_sym e))) in H.
      discriminate.
Qed.

Lemma X20_samples_witness :
  ascending (get_sample_invoices ExFiles.invoice_listing) /\
  NoDup (get_sample_invoices ExFiles.invoice_listing).
Proof.
  apply (X20_samples_sorted_without_duplicates ExFiles.invoice_listing).
  repeat constructor; cbn; intuition discriminate.
Defined.

Example get_sample_invoices_example :
  get_sample_invoices ExFiles.invoice_listing
  = ["invoice/a.jpeg"; "invoice/b.jpg"; "invoice/c.png"].
Proof. reflexivity. Qed.

Lemma has_char_append c a b :
  has_char c (a ++ b) = has_char c a || has_char c b.
Proof.
  induction a as [|x a IH]; [reflexivity|].
  cbn [append]. rewrite !has_char_cons, IH. now rewrite orb_assoc.
Qed.

Lemma basename_join directory name :
  has_char "/" name = false -> basename (path_join directory name) = name.
Proof.
  intros Hname. unfold path_join.
  change ("/" ++ name)%string with (String "/" name).
  induction directory as [|c d IH].
  - cbn [append basename]. now rewrite Hname.
  - cbn [append basename]. rewrite IH.
    rewrite has_char_append, has_char_cons. cbn. now rewrite orb_true_r.
Qed.

(** X21.  The path rebuilt from the name shown in the selector is the
    path of the sample that was listed: for every listed sample, joining
    the invoice directory and the base name of its path gives the path
    back (file names hold no slash). *)
Theorem X21_selected_sample_path_round_trip (listing : list string) (p : string) :
  (forall name, In name listing -> has_char "/" name = false) ->
  In p (get_sample_invoices listing) ->
  selected_path p = p /\ In (basename p) listing.
Proof.
  intros Hnames Hin. unfold get_sample_invoices in Hin.
  apply (Permutation_in _ (py_sorted_perm _)) in Hin.
  apply in_flat_map in Hin as (suffix & _ & Hin).
  apply in_glob_star in Hin as (name & -> & Hname & _ & _).
  unfold selected_path. rewrite basename_join by now apply Hnames.
  now split.
Qed.

Lemma X21_selected_witness :
  selected_path "invoice/b.jpg" = "invoice/b.jpg" /\
  In (basename "invoice/b.jpg") ExFiles.invoice_listing.
Proof.
  apply (X21_selected_sample_path_round_trip ExFiles.invoice_listing "invoice/b.jpg").
  - intros name Hin. cbn in Hin.
    repeat (destruct Hin as [<- | Hin]; [reflexivity|]). destruct Hin.
  - cbn. right. left. reflexivity.
Defined.

(** ** The flags of the session *)

(** X22.  In every reachable state of the session, a verification that
    is marked in progress has its dialog shown (so that the next render
    runs it), and as long as no result is stored the status code is
    [unclear]. *)
Theorem X22_progress_flag_implies_dialog (s : session_state) (fs : filesystem) :
  reachable s fs ->
  (verification_in_progress s = true -> show_verification_modal s = true) /\
  (verification_result s = None -> ss_status_code s = unclear).
Proof.
  induction 1 as [fs | env s fs is_new name amount upload s' fs' msgs _ IH Hclick
                  | env s fs name s' fs' msgs _ IH Hclick
                  | s fs s' _ IH Hstart
                  | jpeg http invoice s fs _ IH _ _
                  | s fs _ IH Hidle].
  - unfold initial_session. destruct (load_signatories fs) as [[sigs imgs] m].
    cbn. split; [discriminate | reflexivity].
  - unfold upsert_click in Hclick.
    destruct (PyStr.truthy name && (amount >? 0)%Z);
      [|injection Hclick as <- _ _; exact IH].
    destruct upload as [upload|];
      [destruct (safe_open_image upload) as [[img|] m0]|];
      try destruct (save_signatories env fs _ _) as [[ok fs1] m];
      injection Hclick as <- _ _; exact IH.
  - unfold remove_click in Hclick.
    destruct (PyDict.mem name (signatories s)); [|discriminate].
    destruct (save_signatories env fs _ _) as [[ok fs1] m].
    injection Hclick as <- _ _. exact IH.
  - injection Hstart as <-. cbn. split; [reflexivity | apply IH].
  - unfold run_verification.
    destruct (call_claude_api _ _ _ _ _); cbn; split; discriminate.
  - cbn. split; [congruence | apply IH].
Qed.

Lemma X22_flags_witness :
  (verification_in_progress Ex.busy = true -> show_verification_modal Ex.busy = true) /\
  (verification_result Ex.busy = None -> ss_status_code Ex.busy = unclear).
Proof.
  refine (X22_progress_flag_implies_dialog Ex.busy ExFiles.roster_fs _).
  refine (@reach_start (initial_session ExFiles.roster_fs) ExFiles.roster_fs Ex.busy _ _).
  - apply reach_load.
  - reflexivity.
Defined.

(** ** The order of the roster *)

Lemma keys_set_in {V : Type} (d : PyDict.t V) (k : string) (v : V) :
  In k (PyDict.keys d) -> PyDict.keys (PyDict.set k v d) = PyDict.keys d.
Proof.
  unfold PyDict.keys. induction d as [|[k0 v0] d IH]; cbn; [tauto|].
  destruct (String.eqb_spec k k0) as [->|Hne]; cbn; [reflexivity|].
  intros [Heq | Hin]; [congruence|]. now rewrite IH.
Qed.

(** X24.  An accepted add/update keeps the order of the roster: the name
    keeps its place when it is already registered and goes last when it
    is new; its limit becomes the amount entered and every other
    signatory keeps its limit. *)
Theorem X24_upsert_keeps_order
        (env : io) (s s' : session_state) (fs fs' : filesystem) (is_new : bool)
        (new_name : string) (new_amount : Z) (new_signature : option image_file)
        (msgs : list ui_msg) :
  new_name <> "" -> (0 < new_amount)%Z ->
  upsert_click env s fs is_new new_name new_amount new_signature
  = Returns (s', fs', msgs) ->
  PyDict.keys (signatories s')
  = (if PyDict.mem new_name (signatories s)
     then PyDict.keys (signatories s)
     else PyDict.keys (signatories s) ++ [new_name]) /\
  PyDict.get new_name (signatories s') = Some new_amount /\
  forall other, other <> new_name ->
    PyDict.get other (signatories s') = PyDict.get other (signatories s).
Proof.
  intros Hname Hamount Hclick. unfold upsert_click in Hclick.
  assert (PyStr.truthy new_name = true) as Ht by (destruct new_name; [congruence | reflexivity]).
  assert ((new_amount >? 0)%Z = true) as Hg by (apply Z.gtb_lt; lia).
  rewrite Ht, Hg in Hclick. cbn [andb] in Hclick.
  assert (Hsigs : signatories s' = PyDict.set new_name new_amount (signatories s)).
  { destruct new_signature as [upload|];
      [destruct (safe_open_image upload) as [[img|] m0]|];
      try destruct (save_signatories env fs _ _) as [[ok fs1] m];
      now injection Hclick as <- _ _. }
  rewrite Hsigs. split; [|split].
  - unfold PyDict.mem.
    destruct (PyDict.get new_name (signatories s)) as [v|] eqn:Hget.
    + apply keys_set_in. apply get_in in Hget.
      apply in_map_iff. exists (new_name, v). now split.
    + rewrite set_fresh, keys_app; [reflexivity|].
      intros Hin. apply in_keys_get in Hin as [v Hv]. congruence.
  - apply get_set_same.
  - intros other Hne. now apply get_set_other.
Qed.

Lemma X24_order_witness :
  let s' := with_roster Ex.idle (PyDict.set "Alice" 2000%Z (signatories Ex.idle)) [] in
  PyDict.keys (signatories s')
  = (if PyDict.mem "Alice" (signatories Ex.idle)
     then PyDict.keys (signatories Ex.idle)
     else PyDict.keys (signatories Ex.idle) ++ ["Alice"]) /\
  PyDict.get "Alice" (signatories s') = Some 2000%Z /\
  forall other, other <> "Alice" ->
    PyDict.get other (signatories s') = PyDict.get other (signatories Ex.idle).
Proof.
  intros s'.
  refine (X24_upsert_keeps_order
            (Ex.quiet "20240101_120000") Ex.idle s' Ex.alice_fs
            (snd (fst (save_signatories (Ex.quiet "20240101_120000") Ex.alice_fs
                         (PyDict.set "Alice" 2000%Z (signatories Ex.idle)) [])))
            false "Alice" 2000%Z None
            (snd (save_signatories (Ex.quiet "20240101_120000") Ex.alice_fs
                    (PyDict.set "Alice" 2000%Z (signatories Ex.idle)) [])
             ++ [saved_msg true false "Alice"]) _ _ _).
  - discriminate.
  - lia.
  - vm_compute. reflexivity.
Defined.

(** ** What a load reads *)

Lemma load_entry_images_source files acc item name :
  In name (PyDict.keys (ld_signature_images (load_entry files acc item))) ->
  In name (PyDict.keys (ld_signature_images acc)) \/
  exists p, fst item = name /\ signature_image_path (snd item) = Some p /\
            In p (PyDict.keys files).
Proof.
  destruct item as [n e]. unfold load_entry. cbn [fst snd].
  destruct (signature_image_path e) as [p|] eqn:Hpath; [|now left].
  destruct (PyDict.get p files) as [f|] eqn:Hp; [|now left].
  destruct (safe_open_image f) as [im m]. cbn [ld_signature_images].
  intros Hin. apply in_keys_set in Hin as [Hin | ->]; [now left|].
  right. exists p. split; [reflexivity|]. split; [reflexivity|].
  apply get_in in Hp. unfold PyDict.keys. apply in_map_iff. exists (p, f). now split.
Qed.

Lemma load_fold_images_source files name data : forall acc,
  In name (PyDict.keys (ld_signature_images (fold_left (load_entry files) data acc))) ->
  In name (PyDict.keys (ld_signature_images acc)) \/
  exists e p, In (name, e) data /\ signature_image_path e = Some p /\
              In p (PyDict.keys files).
Proof.
  induction data as [|item data IH]; intros acc Hin; cbn [fold_left] in Hin; [now left|].
  apply IH in Hin as [Hin | (e & p & He & Hp & Hf)].
  - apply load_entry_images_source in Hin as [Hin | (p & Hn & Hp & Hf)]; [now left|].
    right. destruct item as [n e]. cbn in Hn, Hp. subst n.
    exists e, p. repeat split; auto. now left.
  - right. exists e, p. repeat split; auto. now right.
Qed.

(** X25.  Loading a registry file gives every entry its limit, in the
    order of the file, whether or not its reference image can be read;
    and a name gets an image entry only if the file stores a path for it
    and that path exists. *)
Theorem X25_load_keeps_every_limit
        (fs : filesystem) (data : PyDict.t entry) :
  signatories_file fs = Some (Whole data) ->
  NoDup (PyDict.keys data) ->
  loaded_signatories fs = limits data /\
  forall name, In name (PyDict.keys (loaded_images fs)) ->
    exists e p, In (name, e) data /\ signature_image_path e = Some p /\
                In p (PyDict.keys (other_files fs)).
Proof.
  intros Hfile Hnd. unfold loaded_signatories, loaded_images, load_signatories.
  rewrite Hfile. cbn [fst snd]. split.
  - now rewrite load_fold_signatories.
  - intros name Hin. apply load_fold_images_source in Hin as [[] | H]. exact H.
Qed.

Lemma X25_load_witness :
  loaded_signatories Ex.bob_fs = limits Ex.bob_data /\
  forall name, In name (PyDict.keys (loaded_images Ex.bob_fs)) ->
    exists e p, In (name, e) Ex.bob_data /\ signature_image_path e = Some p /\
                In p (PyDict.keys (other_files Ex.bob_fs)).
Proof.
  apply (X25_load_keeps_every_limit Ex.bob_fs Ex.bob_data).
  - reflexivity.
  - repeat constructor; cbn; intuition discriminate.
Defined.
